(** * Streaming chat relay and chat session controller

    A shallow embedding of [chatbot/server/index.js] (the Express server:
    the [/chat-stream] relay and the [/rate-limit-status] query) and of the
    React component [ChatBot] (the client's [sendMessage]), with the
    properties of the streaming protocol and of the rate-limit coordination
    proved about them.

    Strings are lists of Unicode code points, bytes are integers in
    [0, 256).  The platform functions the two programs call
    ([TextDecoder.decode], [JSON.stringify], [JSON.parse], [String.split],
    [String.trim], the Node response object) are modelled after their
    specifications, next to the code that calls them. *)

From Stdlib Require Import ZArith List Bool Lia String Ascii DecimalString.
From stdpp Require Import base gmap strings list.
Import ListNotations.
Local Open Scope Z_scope.

(** ** Text *)

Abbreviation text := (list Z).

(** A string literal as text: one code point per character. *)
Definition txt (s : string) : text :=
  map (fun a => Z.of_N (N_of_ascii a)) (list_ascii_of_string s).

Definition is_empty (s : text) : bool :=
  match s with [] => true | _ :: _ => false end.

Fixpoint text_eqb (a b : text) : bool :=
  match a, b with
  | [], [] => true
  | x :: a', y :: b' => (x =? y) && text_eqb a' b'
  | _, _ => false
  end.

(** [s.startsWith(p)] *)
Fixpoint startsWith (p s : text) : bool :=
  match p, s with
  | [], _ => true
  | x :: p', y :: s' => (x =? y) && startsWith p' s'
  | _ :: _, [] => false
  end.

(** [line.replace(/^data: /, ...)] with the empty string: the one pattern
    the client uses is an anchored literal prefix, which is cut off when it
    is there. *)
Definition remove_prefix (p s : text) : text :=
  if startsWith p s then drop (length p) s else s.

(** [chunk.split("\n\n")]: the pieces between the occurrences of two line
    feeds, found left to right; a text without the separator is one piece. *)
Fixpoint split_go (cur s : text) : list text :=
  match s with
  | [] => [rev cur]
  | c :: rest =>
      match rest with
      | d :: rest' =>
          if (c =? 10) && (d =? 10) then rev cur :: split_go [] rest'
          else split_go (c :: cur) rest
      | [] => [rev (c :: cur)]
      end
  end.

Definition split_blank_line (s : text) : list text := split_go [] s.

(** White space and line terminators, as [String.prototype.trim] strips. *)
Definition is_white_space (c : Z) : bool :=
  (c =? 9) || (c =? 10) || (c =? 11) || (c =? 12) || (c =? 13) ||
  (c =? 32) || (c =? 160) || (c =? 5760) ||
  ((8192 <=? c) && (c <=? 8202)) ||
  (c =? 8232) || (c =? 8233) || (c =? 8239) || (c =? 8287) ||
  (c =? 12288) || (c =? 65279).

Fixpoint trimStart (s : text) : text :=
  match s with
  | c :: r => if is_white_space c then trimStart r else s
  | [] => []
  end.

Definition trim (s : text) : text := rev (trimStart (rev (trimStart s))).

(** Decimal rendering of an integer, as a template literal does. *)
Definition decimal (z : Z) : text := txt (NilZero.string_of_int (Z.to_int z)).

(** ** UTF-8 *)

Definition is_surrogate (c : Z) : bool := (55296 <=? c) && (c <=? 57343).

(** A code point that UTF-8 can carry. *)
Definition scalar (c : Z) : Prop :=
  (0 <= c < 55296) \/ (57344 <= c < 1114112).

(** The characters of a line of the stream: well-formed, and never a line
    feed. *)
Definition plain (c : Z) : Prop := scalar c /\ c <> 10.

(** Printable ASCII, which the literals of the two programs are. *)
Definition printable (t : text) : bool :=
  forallb (fun c => (32 <=? c) && (c <? 127)) t.

(** What [res.write(string)] puts on the wire for one code point; a lone
    surrogate goes out as U+FFFD. *)
Definition utf8_encode_cp (c0 : Z) : list Z :=
  let c := if is_surrogate c0 then 65533 else c0 in
  if c <? 128 then [c]
  else if c <? 2048 then [192 + c / 64; 128 + c mod 64]
  else if c <? 65536 then
    [224 + c / 4096; 128 + (c / 64) mod 64; 128 + c mod 64]
  else
    [240 + c / 262144; 128 + (c / 4096) mod 64; 128 + (c / 64) mod 64;
     128 + c mod 64].

Definition utf8_encode (s : text) : list Z := flat_map utf8_encode_cp s.

(** The state of the UTF-8 decoder of the Encoding standard. *)
Record DecoderState := mkDecoder {
  code_point : Z;
  bytes_seen : Z;
  bytes_needed : Z;
  lower_boundary : Z;
  upper_boundary : Z
}.

Definition decoder_start : DecoderState := mkDecoder 0 0 0 128 191.

(** A byte read while no sequence is open: output and next state.
    [b mod 32] is [b & 0x1F], and so on. *)
Definition lead_byte (b : Z) : text * DecoderState :=
  if (0 <=? b) && (b <=? 127) then ([b], decoder_start)
  else if (194 <=? b) && (b <=? 223) then
    ([], mkDecoder (b mod 32) 0 1 128 191)
  else if (224 <=? b) && (b <=? 239) then
    ([], mkDecoder (b mod 16) 0 2
           (if b =? 224 then 160 else 128) (if b =? 237 then 159 else 191))
  else if (240 <=? b) && (b <=? 244) then
    ([], mkDecoder (b mod 8) 0 3
           (if b =? 240 then 144 else 128) (if b =? 244 then 143 else 191))
  else ([65533], decoder_start).

(** The decoder run over the bytes of ONE call; at the end of the bytes an
    open sequence is an error, which is U+FFFD in the non-fatal mode.
    A byte outside the boundaries ends the open sequence with U+FFFD and is
    read again as a first byte.  [cp * 64 + b mod 64] is
    [(cp << 6) | (b & 0x3F)]. *)
Fixpoint utf8_decode_go (st : DecoderState) (bs : list Z) : text :=
  match bs with
  | [] => if bytes_needed st =? 0 then [] else [65533]
  | b :: bs' =>
      if bytes_needed st =? 0 then
        let '(out, st') := lead_byte b in out ++ utf8_decode_go st' bs'
      else if (b <? lower_boundary st) || (upper_boundary st <? b) then
        let '(out, st') := lead_byte b in
        65533 :: out ++ utf8_decode_go st' bs'
      else
        let cp := code_point st * 64 + b mod 64 in
        if bytes_seen st + 1 =? bytes_needed st
        then cp :: utf8_decode_go decoder_start bs'
        else utf8_decode_go
               (mkDecoder cp (bytes_seen st + 1) (bytes_needed st) 128 191) bs'
  end.

(** [new TextDecoder("utf-8").decode(value)] without the [stream] option:
    every call starts from a fresh decoder state and flushes at the end of
    its bytes; a leading byte order mark is dropped. *)
Definition TextDecoder_decode (value : list Z) : text :=
  match utf8_decode_go decoder_start value with
  | c :: t => if c =? 65279 then t else c :: t
  | [] => []
  end.

(** ** JSON

    The payloads of the protocol are flat objects whose members are
    strings, booleans or null ([StreamResponse] in the client), and the
    model of [JSON.parse] reads exactly these.  A text that is not such an
    object is a parse failure here; for a truncated or otherwise malformed
    text that is what [JSON.parse] does (it throws).  Numbers, arrays,
    nested objects and the joining of an escaped surrogate pair into one
    character are outside the model; on the payloads the relay writes it
    is exact. *)

Inductive JValue :=
| JNull
| JBool (b : bool)
| JString (s : text).

Abbreviation JObject := (list (text * JValue)).

Definition hex_digit (n : Z) : Z := if n <? 10 then 48 + n else 87 + n.

Definition hex4 (c : Z) : text :=
  [hex_digit (c / 4096 mod 16); hex_digit (c / 256 mod 16);
   hex_digit (c / 16 mod 16); hex_digit (c mod 16)].

(** The escape of one character in a JSON string, as [JSON.stringify]
    writes it. *)
Definition quote_char (c : Z) : text :=
  if c =? 8 then [92; 98]
  else if c =? 9 then [92; 116]
  else if c =? 10 then [92; 110]
  else if c =? 12 then [92; 102]
  else if c =? 13 then [92; 114]
  else if c =? 34 then [92; 34]
  else if c =? 92 then [92; 92]
  else if (c <? 32) || is_surrogate c then 92 :: 117 :: hex4 c
  else [c].

Definition quote_string (s : text) : text :=
  34 :: flat_map quote_char s ++ [34].

Definition stringify_value (v : JValue) : text :=
  match v with
  | JNull => txt "null"
  | JBool true => txt "true"
  | JBool false => txt "false"
  | JString s => quote_string s
  end.

Definition stringify_member (m : text * JValue) : text :=
  quote_string (fst m) ++ [58] ++ stringify_value (snd m).

Fixpoint stringify_members (ms : JObject) : text :=
  match ms with
  | [] => []
  | m :: rest =>
      match rest with
      | [] => stringify_member m
      | _ :: _ => stringify_member m ++ [44] ++ stringify_members rest
      end
  end.

Definition JSON_stringify (o : JObject) : text :=
  [123] ++ stringify_members o ++ [125].

Definition hex_value (c : Z) : option Z :=
  if (48 <=? c) && (c <=? 57) then Some (c - 48)
  else if (97 <=? c) && (c <=? 102) then Some (c - 87)
  else if (65 <=? c) && (c <=? 70) then Some (c - 55)
  else None.

Definition unescape (e : Z) : option Z :=
  if e =? 34 then Some 34
  else if e =? 92 then Some 92
  else if e =? 47 then Some 47
  else if e =? 98 then Some 8
  else if e =? 102 then Some 12
  else if e =? 110 then Some 10
  else if e =? 114 then Some 13
  else if e =? 116 then Some 9
  else None.

Definition cons_char (c : Z) (r : option (text * text)) : option (text * text) :=
  match r with
  | Some (s, rest) => Some (c :: s, rest)
  | None => None
  end.

(** The characters of a string after its opening quote: the string and
    the text after the closing quote. *)
Fixpoint parse_chars (s : text) : option (text * text) :=
  match s with
  | [] => None
  | c :: r =>
      if c =? 34 then Some ([], r)
      else if c =? 92 then
        match r with
        | [] => None
        | e :: r1 =>
            if e =? 117 then
              match r1 with
              | h1 :: h2 :: h3 :: h4 :: r2 =>
                  match hex_value h1, hex_value h2, hex_value h3, hex_value h4 with
                  | Some a, Some b, Some c', Some d =>
                      cons_char (((a * 16 + b) * 16 + c') * 16 + d) (parse_chars r2)
                  | _, _, _, _ => None
                  end
              | _ => None
              end
            else
              match unescape e with
              | Some x => cons_char x (parse_chars r1)
              | None => None
              end
        end
      else if c <? 32 then None
      else cons_char c (parse_chars r)
  end.

Fixpoint skip_ws (s : text) : text :=
  match s with
  | c :: r =>
      if (c =? 32) || (c =? 9) || (c =? 10) || (c =? 13) then skip_ws r else s
  | [] => []
  end.

Definition parse_value (s : text) : option (JValue * text) :=
  match s with
  | [] => None
  | c :: r =>
      if c =? 34 then
        match parse_chars r with
        | Some (v, rest) => Some (JString v, rest)
        | None => None
        end
      else if startsWith (txt "true") s then Some (JBool true, drop 4 s)
      else if startsWith (txt "false") s then Some (JBool false, drop 5 s)
      else if startsWith (txt "null") s then Some (JNull, drop 4 s)
      else None
  end.

(** The members of an object, from the first one to the closing brace. *)
Fixpoint parse_members (fuel : nat) (s : text) : option (JObject * text) :=
  match fuel with
  | O => None
  | S fuel' =>
      match skip_ws s with
      | [] => None
      | c :: r =>
          if negb (c =? 34) then None else
          match parse_chars r with
          | None => None
          | Some (k, r1) =>
              match skip_ws r1 with
              | [] => None
              | c2 :: r2 =>
                  if negb (c2 =? 58) then None else
                  match parse_value (skip_ws r2) with
                  | None => None
                  | Some (v, r3) =>
                      match skip_ws r3 with
                      | [] => None
                      | c3 :: r4 =>
                          if c3 =? 125 then Some ([(k, v)], r4)
                          else if c3 =? 44 then
                            match parse_members fuel' r4 with
                            | Some (ms, r5) => Some ((k, v) :: ms, r5)
                            | None => None
                            end
                          else None
                      end
                  end
              end
          end
      end
  end.

(** [JSON.parse(s)]; [None] is the thrown [SyntaxError]. *)
Definition JSON_parse (s : text) : option JObject :=
  match skip_ws s with
  | [] => None
  | c :: r =>
      if negb (c =? 123) then None else
      match skip_ws r with
      | [] => None
      | c1 :: r1 =>
          if c1 =? 125 then
            if is_empty (skip_ws r1) then Some [] else None
          else
            match parse_members (length r) r with
            | Some (ms, rest) => if is_empty (skip_ws rest) then Some ms else None
            | None => None
            end
      end
  end.

(** [o.k]: the value of the last member named [k], [None] for
    [undefined]. *)
Fixpoint get_property (o : JObject) (k : text) : option JValue :=
  match o with
  | [] => None
  | (k', v) :: rest =>
      match get_property rest k with
      | Some v' => Some v'
      | None => if text_eqb k' k then Some v else None
      end
  end.

(** The truth value a condition gives a property. *)
Definition truthy (v : option JValue) : bool :=
  match v with
  | None => false
  | Some JNull => false
  | Some (JBool b) => b
  | Some (JString s) => negb (is_empty s)
  end.

(** The string a property becomes in a concatenation or a template. *)
Definition to_text (v : option JValue) : text :=
  match v with
  | None => txt "undefined"
  | Some JNull => txt "null"
  | Some (JBool true) => txt "true"
  | Some (JBool false) => txt "false"
  | Some (JString s) => s
  end.

(** ** What the two programs share: messages, events, headers *)

Inductive Role := user | assistant | system.

Record ChatMessage := mkMessage { role : Role; content : text }.

(** The [X-RateLimit-*] response headers by their values: [None] for a
    header that is not there (or, for the two counters, not a number);
    the reset time is in milliseconds since the epoch. *)
Record RateLimitHeaders := mkHeaders {
  x_ratelimit_limit : option Z;
  x_ratelimit_remaining : option Z;
  x_ratelimit_reset : option Z
}.

(** The objects the relay serialises into the stream. *)
Inductive StreamEvent :=
| EvContent (c : text)
| EvFinish (finish_reason : text)
| EvError (message : text)
| EvDone.

Definition payload (e : StreamEvent) : JObject :=
  match e with
  | EvContent c => [(txt "content", JString c)]
  | EvFinish f => [(txt "finish_reason", JString f)]
  | EvError m => [(txt "error", JString m)]
  | EvDone => [(txt "done", JBool true)]
  end.

(** [`data: ${JSON.stringify(obj)}\n\n`] *)
Definition sse (e : StreamEvent) : text :=
  txt "data: " ++ JSON_stringify (payload e) ++ [10; 10].

Definition is_terminal (e : StreamEvent) : bool :=
  match e with EvDone | EvError _ => true | _ => false end.



Definition is_content (e : StreamEvent) : bool :=
  match e with EvContent _ => true | _ => false end.

(** ** The rate limiter *)

Module RateLimiter.

Record Options := mkOptions { windowMs : Z; max : Z }.

Record RateLimitRecord := mkRecord { count : Z; windowStart : Z }.

Record Decision := mkDecision {
  allowed : bool;
  limit : Z;
  remaining : Z;
  resetAt : Z
}.

(** What [store.get] hands to its callback. *)
Record HitCount := mkHitCount { totalHits : Z; resetTime : Z }.

(** Modelled from the spec: the middleware of [express-rate-limit] and its
    memory store are a dependency, not part of index.js, which only
    configures them ([windowMs], [max]) and reads [req.rateLimit] and
    [store.get].  Section 4.1: load or create the record of the client; if
    [now >= windowStart + windowDuration], reset [count = 0] and
    [windowStart = now]. *)
Definition load (o : Options) (store : gmap string RateLimitRecord)
    (clientId : string) (now : Z) : RateLimitRecord :=
  match store !! clientId with
  | Some r =>
      if windowStart r + windowMs o <=? now then mkRecord 0 now else r
  | None => mkRecord 0 now
  end.

(** Modelled from the spec: the admission check of section 4.1, which is
    the missing middleware: increment [count];
    [allowed = count <= max]; [remaining = max(0, max - count)]; the updated
    record is stored under the client identifier. *)
Definition admit_request (o : Options) (store : gmap string RateLimitRecord)
    (clientId : string) (now : Z) : Decision * gmap string RateLimitRecord :=
  let r := load o store clientId now in
  let r' := mkRecord (count r + 1) (windowStart r) in
  (mkDecision (count r' <=? max o) (max o) (Z.max 0 (max o - count r'))
     (windowStart r' + windowMs o),
   <[clientId := r']> store).

(** Modelled from the spec: the read-only status query of section 4.1
    (the missing [store.get]): the record of the client, if there is one,
    and nothing is written. *)
Definition get (o : Options) (store : gmap string RateLimitRecord)
    (clientId : string) : option HitCount :=
  match store !! clientId with
  | Some r => Some (mkHitCount (count r) (windowStart r + windowMs o))
  | None => None
  end.

End RateLimiter.

(** ** The server: chatbot/server/index.js *)

Module Server.

Import RateLimiter.

Definition chatLimiter : Options := mkOptions (60 * 1000) 1.

Definition statusLimiter : Options := mkOptions (60 * 1000) 10.

(** The two limiters each own a store. *)
Record State := mkState {
  chatStore : gmap string RateLimitRecord;
  statusStore : gmap string RateLimitRecord
}.

Definition start : State := mkState ∅ ∅.

(** [req.body.messages], as far as the handler looks at it. *)
Inductive Messages :=
| Undefined
| Null
| Boolean (b : bool)
| Number (n : Z)
| Str (s : text)
| Object
| Array (items : list ChatMessage).

Record Request := mkRequest { ip : string; messages : Messages }.

Definition falsy (m : Messages) : bool :=
  match m with
  | Undefined | Null => true
  | Boolean b => negb b
  | Number n => n =? 0
  | Str s => is_empty s
  | Object | Array _ => false
  end.

Definition isArray (m : Messages) : bool :=
  match m with Array _ => true | _ => false end.

Definition length_is_zero (m : Messages) : bool :=
  match m with
  | Array items => match items with [] => true | _ :: _ => false end
  | Str s => is_empty s
  | _ => false
  end.

(** [!messages || !Array.isArray(messages) || messages.length === 0] *)
Definition invalid (m : Messages) : bool :=
  falsy m || negb (isArray m) || length_is_zero m.

(** The bodies the server sends as JSON. *)
Inductive JsonBody :=
| ErrorBody (error : text)
| TooManyRequests (error : text) (limit remaining resetTime retryAfterMs : Z)
| LimitStatus (isRateLimited : bool) (limit remaining resetTime : Z)
| LimiterMessage.

(** The response object of an open stream.  A write reaches the client
    only while the response has not ended and is writable: Node rejects
    a write after [end()] and sends nothing. *)
Record Response := mkResponse {
  writable : bool;
  writableEnded : bool;
  written : list StreamEvent
}.

Definition res_write (e : StreamEvent) (r : Response) : Response :=
  if writable r && negb (writableEnded r)
  then mkResponse (writable r) (writableEnded r) (written r ++ [e])
  else r.

Definition res_end (r : Response) : Response :=
  mkResponse (writable r) true (written r).

Definition onClientDisconnect (r : Response) : Response := res_end r.

(** The bytes of the response body. *)
Definition wire (r : Response) : list Z :=
  flat_map (fun e => utf8_encode (sse e)) (written r).

(** One suspension of the handler: whether the request's [close] event
    was delivered while it waited, and what the wait produced. *)
Record Await (A : Type) := mkAwait { closed : bool; value : A }.
Arguments mkAwait {A} _ _.
Arguments closed {A} _.
Arguments value {A} _.

(** A chunk of the provider, as far as the relay reads it:
    [chunk.choices?.[0]?.delta?.content] and
    [chunk.choices?.[0]?.finish_reason]. *)
Record Chunk := mkChunk {
  delta_content : option text;
  chunk_finish_reason : option text
}.

Inductive Settled := Fulfilled | Rejected (message : option text).

(** A run of the provider: the call that creates the stream, the chunks
    the stream yields, and how the stream ends (the end of the sequence, or
    a thrown error). *)
Record Upstream := mkUpstream {
  create : Await Settled;
  chunks : list (Await Chunk);
  finish : Await Settled
}.

Definition resume {A} (a : Await A) (r : Response) : Response :=
  if closed a then onClientDisconnect r else r.

Definition nonempty (s : option text) : bool :=
  match s with Some t => negb (is_empty t) | None => false end.

(** The body of the [for await] loop after the connection check. *)
Definition relay_chunk (c : Chunk) (r : Response) : Response :=
  let r1 :=
    match delta_content c with
    | Some s => if is_empty s then r else res_write (EvContent s) r
    | None => r
    end in
  match chunk_finish_reason c with
  | Some f => if is_empty f then r1 else res_write (EvFinish f) r1
  | None => r1
  end.

(** The [for await] loop: the response, the number of chunks taken from
    the provider, and whether the loop left through [break]. *)
Fixpoint for_await (cs : list (Await Chunk)) (r : Response) (n : nat)
  : Response * nat * bool :=
  match cs with
  | [] => (r, n, false)
  | a :: rest =>
      let r1 := resume a r in
      if writableEnded r1 || negb (writable r1) then (r1, S n, true)
      else for_await rest (relay_chunk (value a) r1) (S n)
  end.

(** [err.message || "Unknown error"] *)
Definition error_message (message : option text) : text :=
  if nonempty message then default [] message else txt "Unknown error".

(** The [catch] block. *)
Definition catch (message : option text) (r : Response) : Response :=
  if writable r && negb (writableEnded r) then
    res_end (res_write (EvError (error_message message)) r)
  else r.

Record Relayed := mkRelayed { res : Response; pulled : nat }.

(** The [try] statement of the handler, from a response whose headers
    are flushed. *)
Definition relay (up : Upstream) (r0 : Response) : Relayed :=
  let r1 := resume (create up) r0 in
  match value (create up) with
  | Rejected m => mkRelayed (catch m r1) 0
  | Fulfilled =>
      let '(r2, n, broke) := for_await (chunks up) r1 0 in
      if broke then mkRelayed (res_end (res_write EvDone r2)) n
      else
        let r3 := resume (finish up) r2 in
        match value (finish up) with
        | Rejected m => mkRelayed (catch m r3) n
        | Fulfilled => mkRelayed (res_end (res_write EvDone r3)) n
        end
  end.

Inductive Reply :=
| Json (status : Z) (body : JsonBody)
| EventStream (headers : RateLimitHeaders) (out : Relayed)
| Uncaught (status : Z).

(** The [handler] option of [chatLimiter]. *)
Definition chatLimiter_handler (d : Decision) (now : Z) : Reply :=
  let remainingMs := resetAt d - now in
  Json 429
    (TooManyRequests (txt "Too many requests") (limit d) (remaining d)
       (resetAt d) (if 0 <? remainingMs then remainingMs else 60000)).

(** [app.post("/chat-stream", chatLimiter, async (req, res) => ...)]:
    the limiter runs first, then the handler.  The [Date.now()] of the
    limiter's [handler] option is taken at the limiter's own reading [now];
    [chatLimiter_handler] itself is defined for any reading. *)
Definition chat_stream (s : State) (req : Request) (now : Z) (up : Upstream)
  : State * Reply :=
  let '(d, store') := admit_request chatLimiter (chatStore s) (ip req) now in
  let s' := mkState store' (statusStore s) in
  if negb (allowed d) then (s', chatLimiter_handler d now)
  else if invalid (messages req) then
    (s', Json 400 (ErrorBody (txt "Invalid messages format")))
  else
    (s', EventStream
           (mkHeaders (Some (limit d)) (Some (remaining d)) (Some (resetAt d)))
           (relay up (mkResponse true false []))).

(** [chatLimiter.store], read at the head of the status handler.  What
    [rateLimit(...)] returns is the middleware function, which carries
    [resetKey] and [getKey] and no other property: neither [store] nor
    [options] is there, so the value is [undefined] ([None]), whatever the
    state of the limiter. *)
Definition chatLimiter_store (s : State)
  : option (gmap string RateLimitRecord) := None.

(** The handler of the status route, given the value of
    [chatLimiter.store].  On [undefined] the call [chatLimiterStore.get]
    throws a [TypeError], which Express answers with its error page and
    status 500.  The other branch is the callback as it is written, for a
    store that is there ([fault] is the error the store may pass to it),
    with the options of [chatLimiter] for [chatLimiter.options]. *)
Definition status_handler (chatLimiterStore : option (gmap string RateLimitRecord))
    (identifier : string) (now : Z) (fault : bool) : Reply :=
  match chatLimiterStore with
  | None => Uncaught 500
  | Some store =>
      if fault then
        Json 500 (ErrorBody (txt "Failed to retrieve rate limit status"))
      else
        match get chatLimiter store identifier with
        | None =>
            Json 200
              (LimitStatus false (max chatLimiter) (max chatLimiter)
                 (now + windowMs chatLimiter))
        | Some hitCount =>
            let remaining := Z.max 0 (max chatLimiter - totalHits hitCount) in
            Json 200
              (LimitStatus (remaining <=? 0) (max chatLimiter) remaining
                 (resetTime hitCount))
        end
  end.

(** [app.get("/rate-limit-status", statusLimiter, (req, res) => ...)]:
    the status limiter, then the handler. *)
Definition rate_limit_status (s : State) (identifier : string) (now : Z)
    (fault : bool) : State * Reply :=
  let '(d, store') := admit_request statusLimiter (statusStore s) identifier now in
  let s' := mkState (chatStore s) store' in
  if negb (allowed d) then (s', Json 429 LimiterMessage)
  else (s', status_handler (chatLimiter_store s') identifier now fault).

(** The response of an admitted request when its headers are flushed. *)
Definition fresh : Response := mkResponse true false [].

(** The response still carries events to the client. *)
Definition carries (r : Response) : bool := writable r && negb (writableEnded r).

(** Events none of which is terminal ([done] or [error]). *)
Definition quiet_events (evs : list StreamEvent) : Prop :=
  Forall (fun e => is_terminal e = false) evs.

(** Runs of the provider, for the statements below. *)

Definition quiet {A} (v : A) : Await A := mkAwait false v.

(** Text deltas, then a chunk with the finish signal, then the end of the
    sequence, while the client stays connected. *)
Definition script (deltas : list text) (finish_reason : text) : Upstream :=
  mkUpstream (quiet Fulfilled)
    (map (fun d => quiet (mkChunk (Some d) None)) deltas
       ++ [quiet (mkChunk None (Some finish_reason))])
    (quiet Fulfilled).

(** No [close] event reaches the handler before it is through. *)
Definition transport_open (up : Upstream) : Prop :=
  closed (create up) = false /\
  (value (create up) = Fulfilled ->
   Forall (fun a => closed a = false) (chunks up) /\ closed (finish up) = false).

Definition completes (up : Upstream) : Prop :=
  value (create up) = Fulfilled /\ value (finish up) = Fulfilled.

Definition fails (up : Upstream) (m : option text) : Prop :=
  value (create up) = Rejected m \/
  (value (create up) = Fulfilled /\ value (finish up) = Rejected m).

(** The events one chunk gives while the client is connected: its content
    if that is a non-empty string, then its finish reason if it has one. *)
Definition chunk_events (c : Chunk) : list StreamEvent :=
  (if nonempty (delta_content c) then [EvContent (default [] (delta_content c))]
   else [])
  ++ (if nonempty (chunk_finish_reason c)
      then [EvFinish (default [] (chunk_finish_reason c))] else []).

(** The [close] event reaches the handler at one of its suspensions. *)
Definition disconnected (up : Upstream) : Prop :=
  closed (create up) = true \/
  (value (create up) = Fulfilled /\
   (Exists (fun a => closed a = true) (chunks up) \/ closed (finish up) = true)).

(** A sequence of [GET /rate-limit-status] requests, each with its
    identifier, its time and whether the store reports an error. *)
Fixpoint status_calls (s : State) (calls : list (string * Z * bool)) : State :=
  match calls with
  | [] => s
  | (identifier, now, fault) :: rest =>
      status_calls (fst (rate_limit_status s identifier now fault)) rest
  end.

End Server.

(** ** The client: the ChatBot component *)

Module Client.

Record RateLimitInfo := mkRateLimit {
  limit : Z;
  remaining : Z;
  reset : option Z;
  isLimited : bool
}.

(** The state of the component. *)
Record ChatBot := mkChatBot {
  messages : list ChatMessage;
  input : text;
  isTyping : bool;
  rateLimit : RateLimitInfo;
  error : option text
}.

Definition initial : ChatBot :=
  mkChatBot [] [] false (mkRateLimit 1 1 None false) None.

Definition setMessages (m : list ChatMessage) (c : ChatBot) : ChatBot :=
  mkChatBot m (input c) (isTyping c) (rateLimit c) (error c).

Definition setInput (i : text) (c : ChatBot) : ChatBot :=
  mkChatBot (messages c) i (isTyping c) (rateLimit c) (error c).

Definition setIsTyping (b : bool) (c : ChatBot) : ChatBot :=
  mkChatBot (messages c) (input c) b (rateLimit c) (error c).

Definition setRateLimit (r : RateLimitInfo) (c : ChatBot) : ChatBot :=
  mkChatBot (messages c) (input c) (isTyping c) r (error c).

Definition setError (e : option text) (c : ChatBot) : ChatBot :=
  mkChatBot (messages c) (input c) (isTyping c) (rateLimit c) e.

Definition isRateLimited (c : ChatBot) : bool :=
  isLimited (rateLimit c) || (remaining (rateLimit c) <=? 0).

(** The [disabled] attribute of the input field and of the send button. *)
Definition input_disabled (c : ChatBot) : bool :=
  isTyping c || isRateLimited c.

Definition button_disabled (c : ChatBot) : bool :=
  isTyping c || isRateLimited c || is_empty (trim (input c)).

(** The body reader: the chunks [reader.read()] resolves with, in order,
    and then either [done] or a rejected read. *)
Record Reader := mkReader {
  reads : list (list Z);
  failure : option text
}.

(** What [fetch] resolves with: [json] is what [response.json()] gives
    (an object, or the message of the error it throws) and [body] the
    reader of [response.body], if there is a body. *)
Record Response := mkResponse {
  status : Z;
  headers : RateLimitHeaders;
  json : JObject + text;
  body : option Reader
}.

Inductive Fetch :=
| NetworkError (message : text)
| Responded (r : Response).

(** The three variables of the read loop, [st] being the component. *)
Record Loop := mkLoop {
  assistantMessage : text;
  responseFinished : bool;
  st : ChatBot
}.

(** The body of [for (const line of lines)]: a line that does not parse
    is logged and skipped. *)
Definition handle_line (line : text) (l : Loop) : Loop :=
  let rawData := remove_prefix (txt "data: ") line in
  match JSON_parse rawData with
  | None => l
  | Some data =>
      let l1 :=
        if truthy (get_property data (txt "content")) then
          let am := assistantMessage l ++ to_text (get_property data (txt "content")) in
          mkLoop am (responseFinished l)
            (setMessages (removelast (messages (st l)) ++ [mkMessage assistant am]) (st l))
        else l in
      let l2 :=
        if truthy (get_property data (txt "finish_reason"))
           || truthy (get_property data (txt "done"))
        then mkLoop (assistantMessage l1) true (st l1)
        else l1 in
      if truthy (get_property data (txt "error")) then
        mkLoop (assistantMessage l2) true
          (setError (Some (txt "Error: " ++ to_text (get_property data (txt "error")))) (st l2))
      else l2
  end.

(** What [handle_line] does with the line of an event of the relay. *)
Definition on_event (e : StreamEvent) (l : Loop) : Loop :=
  match e with
  | EvContent c =>
      if is_empty c then l
      else
        let am := assistantMessage l ++ c in
        mkLoop am (responseFinished l)
          (setMessages (removelast (messages (st l)) ++ [mkMessage assistant am]) (st l))
  | EvFinish f =>
      if is_empty f then l else mkLoop (assistantMessage l) true (st l)
  | EvDone => mkLoop (assistantMessage l) true (st l)
  | EvError m =>
      if is_empty m then l
      else mkLoop (assistantMessage l) true
             (setError (Some (txt "Error: " ++ m)) (st l))
  end.

(** One turn of the [while] loop after a read that brought bytes. *)
Definition handle_chunk (value : list Z) (l : Loop) : Loop :=
  let chunk := TextDecoder_decode value in
  let lines := List.filter (startsWith (txt "data: ")) (split_blank_line chunk) in
  fold_left (fun l line => handle_line line l) lines l.

(** The [while (!responseFinished)] loop: after the last chunk the read
    either reports [done], which ends the loop, or throws ([Some m]). *)
Fixpoint read_loop (rs : list (list Z)) (fail : option text) (l : Loop)
  : Loop * option text :=
  match rs with
  | [] =>
      match fail with
      | None => (mkLoop (assistantMessage l) true (st l), None)
      | Some m => (l, Some m)
      end
  | value :: rest =>
      let l' := handle_chunk value l in
      if responseFinished l' then (l', None) else read_loop rest fail l'
  end.

(** The [catch] block of [sendMessage]. *)
Definition catch (message : text) (updatedMessages : list ChatMessage)
    (c : ChatBot) : ChatBot :=
  setMessages updatedMessages (setError (Some (txt "Error: " ++ message)) c).

Definition ok (status : Z) : bool := (200 <=? status) && (status <=? 299).

(** [Number(h) || 0] *)
Definition number_or_zero (h : option Z) : Z := default 0 h.

(** The [try] statement without its [finally]. *)
Definition try_send (updatedMessages : list ChatMessage) (f : Fetch)
    (c : ChatBot) : ChatBot :=
  match f with
  | NetworkError m => catch m updatedMessages c
  | Responded response =>
      let c1 :=
        setRateLimit
          (mkRateLimit
             (number_or_zero (x_ratelimit_limit (headers response)))
             (number_or_zero (x_ratelimit_remaining (headers response)))
             (x_ratelimit_reset (headers response))
             (status response =? 429)) c in
      if status response =? 429 then
        match json response with
        | inl rateLimitData =>
            setIsTyping false
              (setMessages updatedMessages
                 (setError
                    (Some (txt "Rate limited: "
                           ++ to_text (get_property rateLimitData (txt "error"))
                           ++ txt ". Try again later.")) c1))
        | inr m => catch m updatedMessages c1
        end
      else if negb (ok (status response)) then
        catch (txt "Server error: " ++ decimal (status response)) updatedMessages c1
      else
        match body response with
        | None => catch (txt "Failed to get response reader") updatedMessages c1
        | Some reader =>
            match read_loop (reads reader) (failure reader) (mkLoop [] false c1) with
            | (l, None) => st l
            | (l, Some m) => catch m updatedMessages (st l)
            end
        end
  end.

(** [sendMessage]: the component afterwards, and the conversation posted
    to [/chat-stream] if a request was issued. *)
Definition sendMessage (c : ChatBot) (f : Fetch)
  : ChatBot * option (list ChatMessage) :=
  if is_empty (trim (input c)) || isTyping c || isRateLimited c then (c, None)
  else
    let userMessage := mkMessage user (trim (input c)) in
    let updatedMessages := messages c ++ [userMessage] in
    let c1 :=
      setError None
        (setIsTyping true
           (setInput []
              (setMessages (updatedMessages ++ [mkMessage assistant []]) c))) in
    (setIsTyping false (try_send updatedMessages f c1), Some updatedMessages).

(** [getTimeUntilReset] when the clock shows [now] (milliseconds); [None]
    is [null].  On integers [Math.ceil(diffMs / 1000)] is
    [- ((- diffMs) / 1000)]. *)
Definition getTimeUntilReset (c : ChatBot) (now : Z) : option Z :=
  match reset (rateLimit c) with
  | None => None
  | Some resetTime =>
      let diffMs := resetTime - now in
      Some (if 0 <? diffMs then - ((- diffMs) / 1000) else 0)
  end.

(** [formatCountdown]; [%] is the truncating remainder. *)
Definition formatCountdown (seconds : Z) : text :=
  if seconds <? 60 then decimal seconds ++ txt "s"
  else
    let minutes := seconds / 60 in
    let remainingSeconds := Z.rem seconds 60 in
    decimal minutes ++ txt "m " ++ decimal remainingSeconds ++ txt "s".

(** The line above the input field, rendered when
    [rateLimit.reset && rateLimit.remaining <= 0]; its countdown is
    [formatCountdown(getTimeUntilReset() || 0)]. *)
Definition reset_banner (c : ChatBot) (now : Z) : option text :=
  match reset (rateLimit c) with
  | Some _ =>
      if remaining (rateLimit c) <=? 0 then
        Some (txt "Rate limited. Reset in "
              ++ formatCountdown (default 0 (getTimeUntilReset c now)))
      else None
  | None => None
  end.

(** Modelled from the spec: the component keeps no state variable for the
    state machine of section 4.3; the terminal state of a send is read off
    the component when [sendMessage] has returned: [RateLimited] when the
    response was a throttling one, [Errored] when an error is shown,
    [Completed] otherwise. *)
Inductive Terminal := Completed | Errored | RateLimited.

Definition terminal_state (c : ChatBot) : Terminal :=
  if isLimited (rateLimit c) then RateLimited
  else match error c with Some _ => Errored | None => Completed end.

End Client.

(** ** The transport between the two *)

(** A delivery of the events [evs] that keeps events whole: each read
    carries the bytes of some consecutive events. *)
Definition whole_events (groups : list (list StreamEvent)) : list (list Z) :=
  map (fun g => flat_map (fun e => utf8_encode (sse e)) g) groups.

(** The deltas the relay turns into content events. *)
Definition contents (deltas : list text) : list text :=
  List.filter (fun d => negb (is_empty d)) deltas.

(** The line of an event, between two separators. *)
Definition line (e : StreamEvent) : text :=
  txt "data: " ++ JSON_stringify (payload e).

(** The text an event carries is well-formed Unicode. *)
Definition well_formed (e : StreamEvent) : Prop :=
  match e with
  | EvContent c => Forall scalar c
  | EvFinish f => Forall scalar f
  | EvError m => Forall scalar m
  | EvDone => True
  end.

(** The answer [fetch] resolves with for an open stream: status 200, the
    headers of the relay, and a body that is read in the chunks [rs]. *)
Definition streamed (h : RateLimitHeaders) (rs : list (list Z))
    (fail : option text) : Client.Fetch :=
  Client.Responded
    (Client.mkResponse 200 h (inr []) (Some (Client.mkReader rs fail))).

(** The delivery in which every write of the relay arrives as one read. *)
Definition one_by_one (evs : list StreamEvent) : list (list Z) :=
  whole_events (map (fun e => [e]) evs).

(** * Properties *)

(** ** The rate limiter *)

Section Admission.

Import RateLimiter.

Variable o : Options.

Lemma admit_lookup (store : gmap string RateLimitRecord) (id : string) (now : Z) :
  snd (admit_request o store id now) !! id
  = Some (mkRecord (count (load o store id now) + 1)
            (windowStart (load o store id now))).
Proof. unfold admit_request; simpl. apply lookup_insert_eq. Qed.

Lemma admit_other (store : gmap string RateLimitRecord) (id id' : string) (now : Z) :
  id <> id' -> snd (admit_request o store id now) !! id' = store !! id'.
Proof. intros Hne. unfold admit_request; simpl. by apply lookup_insert_ne. Qed.

Lemma load_fresh (store : gmap string RateLimitRecord) (id : string) (now : Z) :
  (forall r, store !! id = Some r -> windowStart r + windowMs o <= now) ->
  load o store id now = mkRecord 0 now.
Proof.
  intros Hopen. unfold load.
  destruct (store !! id) as [r|] eqn:E; [|reflexivity].
  specialize (Hopen r eq_refl).
  destruct (Z.leb_spec (windowStart r + windowMs o) now); [reflexivity | lia].
Qed.

Lemma load_running (store : gmap string RateLimitRecord) (id : string) (now : Z) r :
  store !! id = Some r -> now < windowStart r + windowMs o ->
  load o store id now = r.
Proof.
  intros E Hlt. unfold load. rewrite E.
  destruct (Z.leb_spec (windowStart r + windowMs o) now); [lia | reflexivity].
Qed.

End Admission.

(** C6. Fixed-window admission with [max = 1] and a window of 60 s: when
    the first check at [t1] opens a window for the identifier (no record,
    or a record whose window has elapsed), a second check at [t2] within
    that window is refused and a check at [t3] after the window has elapsed
    is allowed again; and on every call, for any options, the stored count
    is the old count, set to zero first when
    [now >= windowStart + windowDuration], plus one, with
    [allowed = count <= max] and [remaining = max(0, max - count)]. *)
Theorem fixed_window_admission
    (store : gmap string RateLimiter.RateLimitRecord) (id : string) (t1 t2 t3 : Z) :
  (forall r, store !! id = Some r -> RateLimiter.windowStart r + 60000 <= t1) ->
  t1 <= t2 < t1 + 60000 ->
  t1 + 60000 <= t3 ->
  let a1 := RateLimiter.admit_request Server.chatLimiter store id t1 in
  let a2 := RateLimiter.admit_request Server.chatLimiter (snd a1) id t2 in
  let a3 := RateLimiter.admit_request Server.chatLimiter (snd a2) id t3 in
  (RateLimiter.allowed (fst a1) = true /\
   RateLimiter.allowed (fst a2) = false /\
   RateLimiter.allowed (fst a3) = true) /\
  (forall (o : RateLimiter.Options) (st : gmap string RateLimiter.RateLimitRecord)
          (now : Z),
      let before :=
        match st !! id with
        | Some r =>
            if RateLimiter.windowStart r + RateLimiter.windowMs o <=? now
            then 0 else RateLimiter.count r
        | None => 0
        end in
      let d := fst (RateLimiter.admit_request o st id now) in
      (exists r', snd (RateLimiter.admit_request o st id now) !! id = Some r' /\
                  RateLimiter.count r' = before + 1) /\
      RateLimiter.allowed d = (before + 1 <=? RateLimiter.max o) /\
      RateLimiter.remaining d = Z.max 0 (RateLimiter.max o - (before + 1))).
Proof.
  intros Hopen H2 H3 a1 a2 a3. split.
  - assert (L1 : RateLimiter.load Server.chatLimiter store id t1
                 = RateLimiter.mkRecord 0 t1)
      by (apply load_fresh; exact Hopen).
    assert (S1 : snd a1 !! id = Some (RateLimiter.mkRecord 1 t1)).
    { subst a1. rewrite admit_lookup, L1. reflexivity. }
    assert (L2 : RateLimiter.load Server.chatLimiter (snd a1) id t2
                 = RateLimiter.mkRecord 1 t1).
    { apply load_running; [exact S1 | simpl; lia]. }
    assert (S2 : snd a2 !! id = Some (RateLimiter.mkRecord 2 t1)).
    { subst a2. rewrite admit_lookup, L2. reflexivity. }
    assert (L3 : RateLimiter.load Server.chatLimiter (snd a2) id t3
                 = RateLimiter.mkRecord 0 t3).
    { apply load_fresh. intros r Hr. rewrite S2 in Hr.
      injection Hr as <-. simpl. lia. }
    assert (A : forall st now,
               RateLimiter.allowed (fst (RateLimiter.admit_request Server.chatLimiter st id now))
               = (RateLimiter.count (RateLimiter.load Server.chatLimiter st id now) + 1 <=? 1))
      by reflexivity.
    subst a3; subst a2; subst a1. rewrite !A, L1, L2, L3. simpl. auto.
  - intros o st now before d. subst d before.
    rewrite admit_lookup. unfold RateLimiter.admit_request, RateLimiter.load. simpl.
    destruct (st !! id) as [r|]; simpl.
    + destruct (RateLimiter.windowStart r + RateLimiter.windowMs o <=? now);
        simpl; (split; [eexists; split; [reflexivity | reflexivity] | auto]).
    + split; [eexists; split; [reflexivity | reflexivity] | auto].
Qed.

Lemma fixed_window_admission_witness :
  let a1 := RateLimiter.admit_request Server.chatLimiter ∅ "10.0.0.1"%string 1000 in
  let a2 := RateLimiter.admit_request Server.chatLimiter (snd a1) "10.0.0.1"%string 30000 in
  let a3 := RateLimiter.admit_request Server.chatLimiter (snd a2) "10.0.0.1"%string 61000 in
  RateLimiter.allowed (fst a1) = true /\
  RateLimiter.allowed (fst a2) = false /\
  RateLimiter.allowed (fst a3) = true.
Proof.
  apply (fixed_window_admission ∅ "10.0.0.1"%string 1000 30000 61000).
  - intros r Hr. rewrite lookup_empty in Hr. discriminate.
  - lia.
  - lia.
Defined.

(** ** The status query *)

Lemma rate_limit_status_chatStore (s : Server.State) (id : string) (now : Z)
    (fault : bool) :
  Server.chatStore (fst (Server.rate_limit_status s id now fault))
  = Server.chatStore s.
Proof.
  unfold Server.rate_limit_status.
  destruct (RateLimiter.admit_request Server.statusLimiter (Server.statusStore s) id now)
    as [d store'].
  destruct (negb (RateLimiter.allowed d)); reflexivity.
Qed.

Lemma status_calls_chatStore (calls : list (string * Z * bool)) (s : Server.State) :
  Server.chatStore (Server.status_calls s calls) = Server.chatStore s.
Proof.
  revert s. induction calls as [|[[id now] fault] calls IH]; intros s.
  - reflexivity.
  - simpl. rewrite IH. apply rate_limit_status_chatStore.
Qed.

(** C8. The status query is read-only for the chat limiter: after any
    number of [GET /rate-limit-status] calls (of any identifiers, at any
    times, failing or not) the store of the chat limiter is what it was, so
    an admission check gives the same decision (allowed, remaining, reset
    time) and leaves the same store as without the calls, and
    [POST /chat-stream] answers the same. *)
Theorem status_query_read_only
    (s : Server.State) (calls : list (string * Z * bool))
    (id : string) (now : Z) (req : Server.Request) (up : Server.Upstream) :
  Server.chatStore (Server.status_calls s calls) = Server.chatStore s /\
  RateLimiter.admit_request Server.chatLimiter
    (Server.chatStore (Server.status_calls s calls)) id now
  = RateLimiter.admit_request Server.chatLimiter (Server.chatStore s) id now /\
  snd (Server.chat_stream (Server.status_calls s calls) req now up)
  = snd (Server.chat_stream s req now up).
Proof.
  pose proof (status_calls_chatStore calls s) as E.
  split; [exact E|]. split.
  - rewrite E. reflexivity.
  - unfold Server.chat_stream. rewrite E.
    destruct (RateLimiter.admit_request Server.chatLimiter (Server.chatStore s)
                (Server.ip req) now) as [d store'].
    destruct (negb (RateLimiter.allowed d)); [reflexivity|].
    destruct (Server.invalid (Server.messages req)); reflexivity.
Qed.

(** What the callback of the status handler answers for an identifier
    without a record, when it is given a store. *)
Lemma status_handler_unseen
    (store : gmap string RateLimiter.RateLimitRecord) (id : string) (now : Z) :
  store !! id = None ->
  Server.status_handler (Some store) id now false
  = Server.Json 200 (Server.LimitStatus false 1 1 (now + 60000)).
Proof.
  intros Hnone. unfold Server.status_handler, RateLimiter.get.
  rewrite Hnone. reflexivity.
Qed.

(** Whatever the states of the two limiters, the status route answers 429
    or 500. *)
Lemma rate_limit_status_answers
    (s : Server.State) (id : string) (now : Z) (fault : bool) :
  snd (Server.rate_limit_status s id now fault)
  = (if RateLimiter.allowed
          (fst (RateLimiter.admit_request Server.statusLimiter
                  (Server.statusStore s) id now))
     then Server.Uncaught 500
     else Server.Json 429 Server.LimiterMessage).
Proof.
  unfold Server.rate_limit_status.
  destruct (RateLimiter.admit_request Server.statusLimiter (Server.statusStore s)
              id now) as [d store'].
  cbn [fst]. destruct (RateLimiter.allowed d); reflexivity.
Qed.

(** C10 is not what the code does.  The callback is written to answer an
    identifier without a record with 200, [isRateLimited = false], the full
    limit and a reset time one window after the current time, and does so
    when it is given a store; but [chatLimiter.store] is [undefined], the
    call of [get] on it throws, and the first status query of an identifier
    on a fresh server, which the status limiter admits, is answered 500. *)
Lemma status_query_throws :
  RateLimiter.allowed
    (fst (RateLimiter.admit_request Server.statusLimiter
            (Server.statusStore Server.start) "10.0.0.1"%string 5000)) = true /\
  Server.chatStore Server.start !! "10.0.0.1"%string = None /\
  snd (Server.rate_limit_status Server.start "10.0.0.1"%string 5000 false)
  = Server.Uncaught 500 /\
  Server.status_handler (Some (Server.chatStore Server.start))
    "10.0.0.1"%string 5000 false
  = Server.Json 200 (Server.LimitStatus false 1 1 65000).
Proof.
  split; [reflexivity|]. split; [apply lookup_empty|]. split.
  - rewrite rate_limit_status_answers. reflexivity.
  - apply (status_handler_unseen ∅ "10.0.0.1"%string 5000). apply lookup_empty.
Qed.

(** ** Validation and admission *)

(** The requests the handler rejects are those whose [messages] is not a
    non-empty array. *)
Lemma invalid_iff (m : Server.Messages) :
  Server.invalid m = true <-> (forall x xs, m <> Server.Array (x :: xs)).
Proof.
  split.
  - intros H x xs ->. discriminate H.
  - intros H. destruct m as [| |b|n|t| |items]; try reflexivity.
    + destruct b; reflexivity.
    + unfold Server.invalid. simpl. destruct (n =? 0); reflexivity.
    + unfold Server.invalid. simpl. destruct (is_empty t); reflexivity.
    + destruct items as [|x xs]; [reflexivity|]. destruct (H x xs eq_refl).
Qed.

Lemma chat_stream_chatStore
    (s : Server.State) (req : Server.Request) (now : Z) (up : Server.Upstream) :
  Server.chatStore (fst (Server.chat_stream s req now up))
  = snd (RateLimiter.admit_request Server.chatLimiter (Server.chatStore s)
           (Server.ip req) now).
Proof.
  unfold Server.chat_stream.
  destruct (RateLimiter.admit_request Server.chatLimiter (Server.chatStore s)
              (Server.ip req) now) as [d store'].
  destruct (negb (RateLimiter.allowed d)); [reflexivity|].
  destruct (Server.invalid (Server.messages req)); reflexivity.
Qed.

(** C5, as the code has it.  The limiter is a middleware in front of the
    handler: a request whose [messages] is missing, empty or not an array
    first takes its slot in the chat limiter; if the limiter admits it the
    answer is 400 with [{"error": "Invalid messages format"}] and no
    stream, and if not the answer is the limiter's 429. *)
Theorem validation_follows_admission
    (s : Server.State) (req : Server.Request) (now : Z) (up : Server.Upstream) :
  (forall x xs, Server.messages req <> Server.Array (x :: xs)) ->
  let a := RateLimiter.admit_request Server.chatLimiter (Server.chatStore s)
             (Server.ip req) now in
  Server.chatStore (fst (Server.chat_stream s req now up)) = snd a /\
  snd (Server.chat_stream s req now up)
  = (if RateLimiter.allowed (fst a)
     then Server.Json 400 (Server.ErrorBody (txt "Invalid messages format"))
     else Server.chatLimiter_handler (fst a) now).
Proof.
  intros Hinv a. apply invalid_iff in Hinv. subst a.
  split; [apply chat_stream_chatStore|].
  unfold Server.chat_stream.
  destruct (RateLimiter.admit_request Server.chatLimiter (Server.chatStore s)
              (Server.ip req) now) as [d store'].
  simpl. destruct (RateLimiter.allowed d); simpl.
  - rewrite Hinv. reflexivity.
  - reflexivity.
Qed.

Lemma validation_follows_admission_witness :
  snd (Server.chat_stream Server.start
         (Server.mkRequest "10.0.0.1"%string Server.Undefined) 0
         (Server.script [] (txt "stop")))
  = Server.Json 400 (Server.ErrorBody (txt "Invalid messages format")).
Proof.
  apply (validation_follows_admission Server.start
           (Server.mkRequest "10.0.0.1"%string Server.Undefined) 0
           (Server.script [] (txt "stop"))).
  intros x xs H. discriminate H.
Defined.

(** C5 as stated fails: an invalid request does take a slot of the chat
    limiter, and is not always answered 400.  From the empty store, a first
    request without [messages] is answered 400 and leaves a record with
    count 1; a second one in the same window is answered 429. *)
Lemma invalid_request_takes_a_slot :
  ~ (forall (s : Server.State) (req : Server.Request) (now : Z)
            (up : Server.Upstream),
        (forall x xs, Server.messages req <> Server.Array (x :: xs)) ->
        snd (Server.chat_stream s req now up)
        = Server.Json 400 (Server.ErrorBody (txt "Invalid messages format")) /\
        Server.chatStore (fst (Server.chat_stream s req now up))
        = Server.chatStore s).
Proof.
  intros H.
  destruct (H Server.start (Server.mkRequest "10.0.0.1"%string Server.Undefined)
              0 (Server.script [] (txt "stop"))) as [_ Hstore].
  { intros x xs E. discriminate E. }
  rewrite chat_stream_chatStore in Hstore.
  apply (f_equal (fun m => m !! "10.0.0.1"%string)) in Hstore.
  cbv beta in Hstore.
  change (Server.ip (Server.mkRequest "10.0.0.1"%string Server.Undefined))
    with "10.0.0.1"%string in Hstore.
  rewrite admit_lookup in Hstore.
  change (Server.chatStore Server.start) with (∅ : gmap string RateLimiter.RateLimitRecord) in Hstore.
  rewrite lookup_empty in Hstore. discriminate Hstore.
Qed.

(** ** The send gate *)

(** C9. With [remaining <= 0] in the rate-limit state, [sendMessage]
    returns at once: the component is unchanged (no message appended, the
    input kept) and no request is issued; the input field and the send
    button are disabled.  Nothing is asked of [isLimited]: the gate is
    [isLimited || remaining <= 0]. *)
Theorem send_gate_on_exhausted_quota (c : Client.ChatBot) (f : Client.Fetch) :
  Client.remaining (Client.rateLimit c) <= 0 ->
  Client.sendMessage c f = (c, None) /\
  Client.input_disabled c = true /\
  Client.button_disabled c = true /\
  (forall c' : Client.ChatBot,
      Client.isRateLimited c' = true <->
      (Client.isLimited (Client.rateLimit c') = true \/
       Client.remaining (Client.rateLimit c') <= 0)).
Proof.
  intros Hrem.
  assert (G : Client.isRateLimited c = true).
  { unfold Client.isRateLimited. apply orb_true_iff. right.
    apply Z.leb_le. exact Hrem. }
  repeat split.
  - unfold Client.sendMessage. rewrite G.
    rewrite !orb_true_r. reflexivity.
  - unfold Client.input_disabled. rewrite G. apply orb_true_r.
  - unfold Client.button_disabled. rewrite G.
    rewrite orb_true_r. reflexivity.
  - unfold Client.isRateLimited. intros H.
    apply orb_true_iff in H. destruct H as [H|H]; [left; exact H|].
    right. apply Z.leb_le. exact H.
  - unfold Client.isRateLimited. intros [H|H].
    + rewrite H. reflexivity.
    + apply orb_true_iff. right. apply Z.leb_le. exact H.
Qed.

Lemma send_gate_on_exhausted_quota_witness :
  let c := Client.mkChatBot [] (txt "hello") false
             (Client.mkRateLimit 1 0 None false) None in
  Client.isLimited (Client.rateLimit c) = false /\
  Client.sendMessage c (Client.NetworkError (txt "offline")) = (c, None).
Proof.
  split; [reflexivity|].
  apply (send_gate_on_exhausted_quota
           (Client.mkChatBot [] (txt "hello") false
              (Client.mkRateLimit 1 0 None false) None)
           (Client.NetworkError (txt "offline"))).
  simpl. lia.
Defined.

(** ** The relay *)

Section Relay.

Import Server.

Lemma res_write_written (e : StreamEvent) (r : Response) :
  written (res_write e r) = if carries r then written r ++ [e] else written r.
Proof. unfold res_write, carries. destruct (writable r && negb (writableEnded r)); reflexivity. Qed.

Lemma res_write_carries (e : StreamEvent) (r : Response) :
  carries (res_write e r) = carries r.
Proof. unfold res_write, carries. destruct (writable r && negb (writableEnded r)) eqn:E; simpl; [exact E | exact E]. Qed.

Lemma res_write_mute (e : StreamEvent) (r : Response) :
  carries r = false -> res_write e r = r.
Proof. unfold res_write, carries. intros ->. reflexivity. Qed.

Lemma check_is_not_carries (r : Response) :
  writableEnded r || negb (writable r) = negb (carries r).
Proof. unfold carries. destruct (writable r), (writableEnded r); reflexivity. Qed.

Lemma res_end_carries (r : Response) : carries (res_end r) = false.
Proof. unfold carries. simpl. apply andb_false_r. Qed.

Lemma relay_chunk_carries (c : Chunk) (r : Response) :
  carries (relay_chunk c r) = carries r.
Proof.
  unfold relay_chunk.
  destruct (delta_content c) as [s|], (chunk_finish_reason c) as [f|];
    repeat match goal with |- context [is_empty ?x] => destruct (is_empty x) end;
    rewrite ?res_write_carries; reflexivity.
Qed.

Lemma relay_chunk_written (c : Chunk) (r : Response) :
  exists evs, written (relay_chunk c r) = written r ++ evs /\ quiet_events evs.
Proof.
  unfold relay_chunk.
  set (r1 := match delta_content c with
             | Some s => if is_empty s then r else res_write (EvContent s) r
             | None => r
             end).
  assert (H1 : exists evs, written r1 = written r ++ evs /\ quiet_events evs).
  { subst r1. destruct (delta_content c) as [s|].
    - destruct (is_empty s).
      + exists []. rewrite app_nil_r. split; [reflexivity | constructor].
      + rewrite res_write_written. destruct (carries r).
        * exists [EvContent s]. split; [reflexivity | repeat constructor].
        * exists []. rewrite app_nil_r. split; [reflexivity | constructor].
    - exists []. rewrite app_nil_r. split; [reflexivity | constructor]. }
  destruct H1 as (evs & E & Q).
  destruct (chunk_finish_reason c) as [f|].
  - destruct (is_empty f); [exists evs; auto|].
    rewrite res_write_written. destruct (carries r1).
    + exists (evs ++ [EvFinish f]). rewrite E, app_assoc. split; [reflexivity|].
      apply Forall_app. split; [exact Q | repeat constructor].
    + exists evs. auto.
  - exists evs. auto.
Qed.

(** The loop writes content and finish events only, and takes at most
    as many chunks as there are. *)
Lemma for_await_written (cs : list (Await Chunk)) (r : Response) (n : nat) :
  exists evs,
    written (fst (fst (for_await cs r n))) = written r ++ evs /\ quiet_events evs.
Proof.
  revert r n. induction cs as [|a cs IH]; intros r n; simpl.
  - exists []. rewrite app_nil_r. split; [reflexivity | constructor].
  - assert (W : written (resume a r) = written r)
      by (unfold resume; destruct (closed a); reflexivity).
    destruct (writableEnded (resume a r) || negb (writable (resume a r))); simpl.
    + exists []. rewrite app_nil_r. split; [exact W | constructor].
    + destruct (IH (relay_chunk (value a) (resume a r)) (S n)) as (evs & E & Q).
      destruct (relay_chunk_written (value a) (resume a r)) as (evs0 & E0 & Q0).
      exists (evs0 ++ evs). rewrite E, E0, W, app_assoc.
      split; [reflexivity | apply Forall_app; auto].
Qed.

Lemma for_await_pulled (cs : list (Await Chunk)) (r : Response) (n : nat) :
  (snd (fst (for_await cs r n)) <= n + length cs)%nat.
Proof.
  revert r n. induction cs as [|a cs IH]; intros r n; simpl.
  - lia.
  - destruct (writableEnded (resume a r) || negb (writable (resume a r))); simpl.
    + lia.
    + specialize (IH (relay_chunk (value a) (resume a r)) (S n)). lia.
Qed.

(** After [break] the response carries nothing. *)
Lemma for_await_broke (cs : list (Await Chunk)) (r : Response) (n : nat) :
  snd (for_await cs r n) = true ->
  carries (fst (fst (for_await cs r n))) = false.
Proof.
  revert r n. induction cs as [|a cs IH]; intros r n; simpl.
  - discriminate.
  - rewrite check_is_not_carries.
    destruct (carries (resume a r)) eqn:C; simpl.
    + apply IH.
    + intros _. exact C.
Qed.

(** A [close] event while the handler waits for a chunk makes the loop
    leave at that chunk, whatever follows it. *)
Lemma for_await_disconnect (pre post : list (Await Chunk)) (a : Await Chunk)
    (r : Response) (n : nat) :
  closed a = true ->
  for_await (pre ++ a :: post) r n
  = (let '(r1, n1, broke) := for_await pre r n in
     if broke then (r1, n1, true) else (onClientDisconnect r1, S n1, true)).
Proof.
  intros Ha. revert r n. induction pre as [|b pre IH]; intros r n; simpl.
  - unfold resume. rewrite Ha. simpl. reflexivity.
  - destruct (writableEnded (resume b r) || negb (writable (resume b r))).
    + reflexivity.
    + apply IH.
Qed.

(** With the client connected throughout, the loop runs to the end of the
    chunks and the response still carries events. *)
Lemma for_await_connected (cs : list (Await Chunk)) (r : Response) (n : nat) :
  Forall (fun a => closed a = false) cs ->
  carries r = true ->
  snd (for_await cs r n) = false /\
  carries (fst (fst (for_await cs r n))) = true /\
  snd (fst (for_await cs r n)) = (n + length cs)%nat.
Proof.
  intros Hcs. revert r n. induction Hcs as [|a cs Ha Hcs IH]; intros r n C; simpl.
  - repeat split; [exact C | lia].
  - unfold resume. rewrite Ha. rewrite check_is_not_carries, C. simpl.
    destruct (IH (relay_chunk (value a) r) (S n)) as (B & C' & P).
    { rewrite relay_chunk_carries. exact C. }
    repeat split; [exact B | exact C' | rewrite P; lia].
Qed.

End Relay.

(** A stream is opened by the relay on a fresh response. *)
Lemma chat_stream_relay
    (s : Server.State) (req : Server.Request) (now : Z) (up : Server.Upstream)
    (h : RateLimitHeaders) (out : Server.Relayed) :
  snd (Server.chat_stream s req now up) = Server.EventStream h out ->
  out = Server.relay up Server.fresh.
Proof.
  unfold Server.chat_stream.
  destruct (RateLimiter.admit_request Server.chatLimiter (Server.chatStore s)
              (Server.ip req) now) as [d store'].
  destruct (negb (RateLimiter.allowed d)); [discriminate|].
  destruct (Server.invalid (Server.messages req)); [discriminate|].
  cbn [snd]. intros E. injection E as _ E. symmetry. exact E.
Qed.

(** C4. Disconnect silence.  On a request for which the stream was opened,
    when the [close] event of the request arrives while the handler waits
    for a chunk, the events on the response are exactly those written
    before that chunk: the chunk is not relayed, no later chunk is taken
    from the provider, and no [done] and no [error] event follows. *)
Theorem disconnect_silence
    (s : Server.State) (req : Server.Request) (now : Z) (up : Server.Upstream)
    (h : RateLimitHeaders) (out : Server.Relayed)
    (pre post : list (Server.Await Server.Chunk))
    (a : Server.Await Server.Chunk) :
  snd (Server.chat_stream s req now up) = Server.EventStream h out ->
  Server.value (Server.create up) = Server.Fulfilled ->
  Server.chunks up = pre ++ a :: post ->
  Server.closed a = true ->
  let before :=
    fst (fst (Server.for_await pre
                (Server.resume (Server.create up) Server.fresh) 0)) in
  Server.written (Server.res out) = Server.written before /\
  Server.quiet_events (Server.written (Server.res out)) /\
  (Server.pulled out <= S (length pre))%nat.
Proof.
  intros Hstream Hc Hchunks Ha before.
  apply chat_stream_relay in Hstream. subst out.
  set (r1 := Server.resume (Server.create up) Server.fresh) in *.
  assert (W1 : Server.written r1 = []).
  { subst r1. unfold Server.resume. destruct (Server.closed (Server.create up)); reflexivity. }
  pose proof (for_await_written pre r1 0) as (evs & E & Q).
  pose proof (for_await_pulled pre r1 0) as P.
  pose proof (for_await_broke pre r1 0) as B.
  assert (Hout : Server.written (Server.res (Server.relay up Server.fresh))
                 = Server.written before
                 /\ (Server.pulled (Server.relay up Server.fresh)
                     <= S (length pre))%nat).
  { subst before. unfold Server.relay. fold r1. rewrite Hc, Hchunks.
    rewrite (for_await_disconnect pre post a r1 0 Ha).
    destruct (Server.for_await pre r1 0) as [[r2 n] broke]. simpl in *.
    destruct broke; simpl.
    - rewrite (res_write_mute EvDone r2 (B eq_refl)). split; [reflexivity | lia].
    - rewrite res_write_mute by apply res_end_carries. split; [reflexivity | lia]. }
  destruct Hout as [Hw Hp]. repeat split; [exact Hw | | exact Hp].
  rewrite Hw. subst before. rewrite E, W1. exact Q.
Qed.

Lemma disconnect_silence_witness :
  let up := Server.mkUpstream (Server.quiet Server.Fulfilled)
              [Server.quiet (Server.mkChunk (Some (txt "Hel")) None);
               Server.mkAwait true (Server.mkChunk (Some (txt "lo")) None);
               Server.quiet (Server.mkChunk None (Some (txt "stop")))]
              (Server.quiet Server.Fulfilled) in
  Server.written (Server.res (Server.relay up Server.fresh))
  = [EvContent (txt "Hel")] /\
  Server.quiet_events (Server.written (Server.res (Server.relay up Server.fresh))) /\
  (Server.pulled (Server.relay up Server.fresh) <= 2)%nat.
Proof.
  apply (disconnect_silence Server.start
           (Server.mkRequest "10.0.0.1"%string
              (Server.Array [mkMessage user (txt "hi")])) 0
           (Server.mkUpstream (Server.quiet Server.Fulfilled)
              [Server.quiet (Server.mkChunk (Some (txt "Hel")) None);
               Server.mkAwait true (Server.mkChunk (Some (txt "lo")) None);
               Server.quiet (Server.mkChunk None (Some (txt "stop")))]
              (Server.quiet Server.Fulfilled))
           (mkHeaders (Some 1) (Some 0) (Some 60000))
           (Server.relay
              (Server.mkUpstream (Server.quiet Server.Fulfilled)
                 [Server.quiet (Server.mkChunk (Some (txt "Hel")) None);
                  Server.mkAwait true (Server.mkChunk (Some (txt "lo")) None);
                  Server.quiet (Server.mkChunk None (Some (txt "stop")))]
                 (Server.quiet Server.Fulfilled))
              Server.fresh)
           [Server.quiet (Server.mkChunk (Some (txt "Hel")) None)]
           [Server.quiet (Server.mkChunk None (Some (txt "stop")))]
           (Server.mkAwait true (Server.mkChunk (Some (txt "lo")) None)));
    reflexivity.
Defined.






(** ** Code points through UTF-8 *)

Ltac divlia := Z.to_euclidean_division_equations; lia.

Lemma decode_ascii (b : Z) (bs : list Z) :
  0 <= b <= 127 ->
  utf8_decode_go decoder_start (b :: bs) = b :: utf8_decode_go decoder_start bs.
Proof.
  intros H. simpl. unfold lead_byte.
  destruct (Z.leb_spec 0 b); [|lia]. destruct (Z.leb_spec b 127); [|lia].
  reflexivity.
Qed.

Lemma decode_lead2 (b : Z) (bs : list Z) :
  194 <= b <= 223 ->
  utf8_decode_go decoder_start (b :: bs)
  = utf8_decode_go (mkDecoder (b mod 32) 0 1 128 191) bs.
Proof.
  intros H. simpl. unfold lead_byte.
  destruct (Z.leb_spec b 127); [lia|]. rewrite andb_false_r.
  destruct (Z.leb_spec 194 b); [|lia]. destruct (Z.leb_spec b 223); [|lia].
  reflexivity.
Qed.

Lemma decode_lead3 (b : Z) (bs : list Z) :
  224 <= b <= 239 ->
  utf8_decode_go decoder_start (b :: bs)
  = utf8_decode_go
      (mkDecoder (b mod 16) 0 2 (if b =? 224 then 160 else 128)
         (if b =? 237 then 159 else 191)) bs.
Proof.
  intros H. simpl. unfold lead_byte.
  destruct (Z.leb_spec b 127); [lia|]. rewrite andb_false_r.
  destruct (Z.leb_spec b 223); [lia|]. rewrite andb_false_r.
  destruct (Z.leb_spec 224 b); [|lia]. destruct (Z.leb_spec b 239); [|lia].
  reflexivity.
Qed.

Lemma decode_lead4 (b : Z) (bs : list Z) :
  240 <= b <= 244 ->
  utf8_decode_go decoder_start (b :: bs)
  = utf8_decode_go
      (mkDecoder (b mod 8) 0 3 (if b =? 240 then 144 else 128)
         (if b =? 244 then 143 else 191)) bs.
Proof.
  intros H. simpl. unfold lead_byte.
  destruct (Z.leb_spec b 127); [lia|]. rewrite andb_false_r.
  destruct (Z.leb_spec b 223); [lia|]. rewrite andb_false_r.
  destruct (Z.leb_spec b 239); [lia|]. rewrite andb_false_r.
  destruct (Z.leb_spec 240 b); [|lia]. destruct (Z.leb_spec b 244); [|lia].
  reflexivity.
Qed.

Lemma decode_last (cp seen needed lo hi b : Z) (bs : list Z) :
  needed <> 0 -> lo <= b <= hi -> seen + 1 = needed ->
  utf8_decode_go (mkDecoder cp seen needed lo hi) (b :: bs)
  = (cp * 64 + b mod 64) :: utf8_decode_go decoder_start bs.
Proof.
  intros Hn Hb Hs. simpl.
  destruct (Z.eqb_spec needed 0); [lia|].
  destruct (Z.ltb_spec b lo); [lia|]. destruct (Z.ltb_spec hi b); [lia|].
  simpl. destruct (Z.eqb_spec (seen + 1) needed); [reflexivity | lia].
Qed.

Lemma decode_more (cp seen needed lo hi b : Z) (bs : list Z) :
  needed <> 0 -> lo <= b <= hi -> seen + 1 <> needed ->
  utf8_decode_go (mkDecoder cp seen needed lo hi) (b :: bs)
  = utf8_decode_go (mkDecoder (cp * 64 + b mod 64) (seen + 1) needed 128 191) bs.
Proof.
  intros Hn Hb Hs. simpl.
  destruct (Z.eqb_spec needed 0); [lia|].
  destruct (Z.ltb_spec b lo); [lia|]. destruct (Z.ltb_spec hi b); [lia|].
  simpl. destruct (Z.eqb_spec (seen + 1) needed); [lia | reflexivity].
Qed.


Lemma decode_encode_cp (c : Z) (bs : list Z) :
  scalar c ->
  utf8_decode_go decoder_start (utf8_encode_cp c ++ bs)
  = c :: utf8_decode_go decoder_start bs.
Proof.
  intros Hc. unfold utf8_encode_cp.
  assert (S : is_surrogate c = false).
  { unfold is_surrogate, scalar in *.
    destruct (Z.leb_spec 55296 c), (Z.leb_spec c 57343); try reflexivity; lia. }
  rewrite S. unfold scalar in Hc.
  destruct (Z.ltb_spec c 128); [|destruct (Z.ltb_spec c 2048);
                                 [|destruct (Z.ltb_spec c 65536)]]; simpl app.
  - apply decode_ascii. lia.
  - rewrite decode_lead2 by divlia.
    rewrite decode_last by divlia. f_equal. divlia.
  - rewrite decode_lead3 by divlia.
    rewrite decode_more.
    + rewrite decode_last by divlia. f_equal. divlia.
    + lia.
    + destruct (Z.eqb_spec (224 + c / 4096) 224), (Z.eqb_spec (224 + c / 4096) 237); divlia.
    + lia.
  - rewrite decode_lead4 by divlia.
    rewrite decode_more.
    + rewrite decode_more by divlia.
      rewrite decode_last by divlia. f_equal. divlia.
    + lia.
    + destruct (Z.eqb_spec (240 + c / 262144) 240), (Z.eqb_spec (240 + c / 262144) 244); divlia.
    + lia.
Qed.
(** ** Strings and payloads through [JSON.stringify] and [JSON.parse] *)

Lemma hex_value_digit (n : Z) : 0 <= n < 16 -> hex_value (hex_digit n) = Some n.
Proof.
  intros H. unfold hex_value, hex_digit.
  destruct (Z.ltb_spec n 10).
  - destruct (Z.leb_spec 48 (48 + n)); [|lia].
    destruct (Z.leb_spec (48 + n) 57); [|lia]. simpl. f_equal. lia.
  - destruct (Z.leb_spec (87 + n) 57); [lia|]. rewrite andb_false_r.
    destruct (Z.leb_spec 97 (87 + n)); [|lia].
    destruct (Z.leb_spec (87 + n) 102); [|lia]. simpl. f_equal. lia.
Qed.

Lemma parse_chars_plain (c : Z) (tl : text) :
  c <> 34 -> c <> 92 -> 32 <= c ->
  parse_chars (c :: tl) = cons_char c (parse_chars tl).
Proof.
  intros H1 H2 H3. simpl.
  destruct (Z.eqb_spec c 34); [lia|]. destruct (Z.eqb_spec c 92); [lia|].
  destruct (Z.ltb_spec c 32); [lia|]. reflexivity.
Qed.

Lemma parse_chars_hex (c : Z) (tl : text) :
  0 <= c < 65536 ->
  parse_chars (92 :: 117 :: hex4 c ++ tl) = cons_char c (parse_chars tl).
Proof.
  intros H. unfold hex4. simpl.
  rewrite !hex_value_digit by divlia.
  f_equal. divlia.
Qed.

Lemma parse_chars_quote_char (c : Z) (tl : text) :
  scalar c ->
  parse_chars (quote_char c ++ tl) = cons_char c (parse_chars tl).
Proof.
  intros Hc. unfold quote_char.
  assert (S : is_surrogate c = false).
  { unfold is_surrogate, scalar in *.
    destruct (Z.leb_spec 55296 c), (Z.leb_spec c 57343); try reflexivity; lia. }
  rewrite S, orb_false_r. unfold scalar in Hc.
  repeat match goal with
  | |- context [if ?x =? ?k then _ else _] =>
      destruct (Z.eqb_spec x k); [subst; reflexivity|]
  end.
  destruct (Z.ltb_spec c 32).
  - change ((92 :: 117 :: hex4 c) ++ tl) with (92 :: 117 :: hex4 c ++ tl).
    apply parse_chars_hex. lia.
  - apply parse_chars_plain; lia.
Qed.

Lemma parse_chars_quoted (s rest : text) :
  Forall scalar s ->
  parse_chars (flat_map quote_char s ++ 34 :: rest) = Some (s, rest).
Proof.
  induction 1 as [|c s Hc Hs IH]; simpl.
  - reflexivity.
  - rewrite <- app_assoc, parse_chars_quote_char by exact Hc.
    rewrite IH. reflexivity.
Qed.

Lemma stringify_one (k s : text) :
  JSON_stringify [(k, JString s)]
  = 123 :: 34 :: flat_map quote_char k ++ 34 :: 58 :: 34
        :: flat_map quote_char s ++ [34; 125].
Proof.
  unfold JSON_stringify, stringify_members, stringify_member,
    stringify_value, quote_string. simpl.
  rewrite <- !app_assoc. simpl. rewrite <- !app_assoc. reflexivity.
Qed.

Lemma parse_member (k s : text) :
  Forall scalar k -> Forall scalar s ->
  JSON_parse (JSON_stringify [(k, JString s)]) = Some [(k, JString s)].
Proof.
  intros Hk Hs. rewrite stringify_one.
  unfold JSON_parse. cbn [skip_ws Z.eqb Pos.eqb orb negb length parse_members].
  rewrite (parse_chars_quoted k _ Hk).
  cbn [skip_ws Z.eqb Pos.eqb orb negb parse_value].
  rewrite (parse_chars_quoted s _ Hs).
  reflexivity.
Qed.

Lemma scalar_literal (t : text) : printable t = true -> Forall scalar t.
Proof.
  unfold printable. rewrite forallb_forall. intros H.
  apply List.Forall_forall. intros c Hc. specialize (H c Hc).
  apply andb_true_iff in H. destruct H as [H1 H2].
  apply Z.leb_le in H1. apply Z.ltb_lt in H2. unfold scalar. lia.
Qed.

Lemma parse_payload (e : StreamEvent) :
  well_formed e -> JSON_parse (JSON_stringify (payload e)) = Some (payload e).
Proof.
  destruct e as [c|f|m|]; simpl well_formed; intros H.
  - apply parse_member; [|exact H]. apply scalar_literal. reflexivity.
  - apply parse_member; [|exact H]. apply scalar_literal. reflexivity.
  - apply parse_member; [|exact H]. apply scalar_literal. reflexivity.
  - reflexivity.
Qed.

(** ** The lines of the stream *)

Lemma plain_ascii (c : Z) : 0 <= c < 128 -> c <> 10 -> plain c.
Proof. unfold plain, scalar. lia. Qed.

Lemma plain_literal (t : text) : printable t = true -> Forall plain t.
Proof.
  unfold printable. rewrite forallb_forall. intros H.
  apply List.Forall_forall. intros c Hc. specialize (H c Hc).
  apply andb_true_iff in H. destruct H as [H1 H2].
  apply Z.leb_le in H1. apply Z.ltb_lt in H2. apply plain_ascii; lia.
Qed.

Lemma hex_digit_plain (n : Z) : 0 <= n < 16 -> plain (hex_digit n).
Proof.
  intros H. unfold hex_digit. destruct (Z.ltb_spec n 10); apply plain_ascii; lia.
Qed.

Ltac ascii_list :=
  repeat (apply List.Forall_cons; [apply plain_ascii; lia|]);
  try apply List.Forall_nil.

Lemma quote_char_plain (c : Z) : scalar c -> Forall plain (quote_char c).
Proof.
  intros Hc. unfold quote_char.
  assert (S : is_surrogate c = false).
  { unfold is_surrogate, scalar in *.
    destruct (Z.leb_spec 55296 c), (Z.leb_spec c 57343); try reflexivity; lia. }
  rewrite S, orb_false_r.
  repeat match goal with
  | |- context [if ?x =? ?k then _ else _] =>
      destruct (Z.eqb_spec x k); [ascii_list|]
  end.
  destruct (Z.ltb_spec c 32).
  - unfold hex4. unfold scalar in Hc. ascii_list.
    repeat (apply List.Forall_cons; [apply hex_digit_plain; divlia|]).
    apply List.Forall_nil.
  - apply List.Forall_cons; [split; [exact Hc | lia] | apply List.Forall_nil].
Qed.

Lemma quoted_plain (s : text) : Forall scalar s -> Forall plain (flat_map quote_char s).
Proof.
  induction 1 as [|c s Hc Hs IH]; simpl.
  - constructor.
  - apply Forall_app. split; [apply quote_char_plain; exact Hc | exact IH].
Qed.

Lemma line_plain (e : StreamEvent) : well_formed e -> Forall plain (line e).
Proof.
  assert (A : forall k s, Forall scalar k -> Forall scalar s ->
              Forall plain (txt "data: " ++ JSON_stringify [(k, JString s)])).
  { intros k s Hk Hs. rewrite stringify_one.
    apply Forall_app. split.
    - apply plain_literal. reflexivity.
    - ascii_list.
      apply Forall_app. split; [apply quoted_plain; exact Hk|].
      ascii_list.
      apply Forall_app. split; [apply quoted_plain; exact Hs|].
      ascii_list. }
  unfold line. destruct e as [c|f|m|]; simpl well_formed; intros H.
  - apply A; [|exact H]. apply scalar_literal. reflexivity.
  - apply A; [|exact H]. apply scalar_literal. reflexivity.
  - apply A; [|exact H]. apply scalar_literal. reflexivity.
  - apply plain_literal. reflexivity.
Qed.

Lemma scalar_literal_nl : Forall scalar [10; 10].
Proof. repeat (apply List.Forall_cons; [unfold scalar; lia|]). apply List.Forall_nil. Qed.

Lemma decode_encode (t bs : list Z) :
  Forall scalar t ->
  utf8_decode_go decoder_start (utf8_encode t ++ bs)
  = t ++ utf8_decode_go decoder_start bs.
Proof.
  induction 1 as [|c t Hc Ht IH]; simpl.
  - reflexivity.
  - rewrite <- app_assoc, decode_encode_cp by exact Hc. rewrite IH. reflexivity.
Qed.

(** A whole number of lines decodes to itself. *)
Lemma TextDecoder_lines (g : list StreamEvent) :
  Forall well_formed g ->
  TextDecoder_decode (flat_map (fun e => utf8_encode (sse e)) g)
  = flat_map sse g.
Proof.
  intros Hg.
  assert (E : flat_map (fun e => utf8_encode (sse e)) g = utf8_encode (flat_map sse g)).
  { clear Hg. induction g as [|e g IH]; cbn [flat_map]; [reflexivity|].
    rewrite IH. unfold utf8_encode. rewrite flat_map_app. reflexivity. }
  assert (P : Forall scalar (flat_map sse g)).
  { clear E. induction Hg as [|e g He Hg IH]; cbn [flat_map]; [constructor|].
    apply Forall_app. split; [|exact IH].
    unfold sse. rewrite app_assoc. fold (line e). apply Forall_app. split.
    - eapply Forall_impl; [apply (line_plain e He)|]. intros c [Hc _]. exact Hc.
    - apply scalar_literal_nl. }
  unfold TextDecoder_decode. rewrite E.
  rewrite <- (app_nil_r (utf8_encode (flat_map sse g))), decode_encode by exact P.
  cbn [utf8_decode_go bytes_needed decoder_start Z.eqb]. rewrite app_nil_r.
  destruct g as [|e g]; reflexivity.
Qed.

Lemma split_go_line (t cur rest : text) :
  Forall plain t ->
  split_go cur (t ++ 10 :: 10 :: rest) = (rev cur ++ t) :: split_go [] rest.
Proof.
  intros Ht. revert cur. induction Ht as [|c t [_ Hc] Ht IH]; intros cur.
  - simpl. rewrite app_nil_r. reflexivity.
  - cbn [app split_go].
    destruct (t ++ 10 :: 10 :: rest) as [|d rest'] eqn:E.
    { destruct t; discriminate E. }
    destruct (Z.eqb_spec c 10); [contradiction|]. cbn [andb].
    rewrite IH. cbn [rev]. rewrite <- app_assoc. reflexivity.
Qed.

Lemma split_lines (g : list StreamEvent) :
  Forall well_formed g ->
  split_blank_line (flat_map sse g) = map line g ++ [[]].
Proof.
  unfold split_blank_line.
  induction 1 as [|e g He Hg IH]; cbn [flat_map map app]; [reflexivity|].
  unfold sse at 1. rewrite app_assoc. fold (line e). rewrite <- app_assoc.
  cbn [app]. rewrite split_go_line by (apply line_plain; exact He).
  rewrite IH. reflexivity.
Qed.

Lemma startsWith_app (p x : text) : startsWith p (p ++ x) = true.
Proof.
  induction p as [|c p IH]; simpl; [reflexivity|].
  rewrite Z.eqb_refl. exact IH.
Qed.

Lemma remove_prefix_app (p x : text) : remove_prefix p (p ++ x) = x.
Proof.
  unfold remove_prefix. rewrite startsWith_app. apply drop_app_length.
Qed.

Lemma data_lines (g : list StreamEvent) :
  List.filter (startsWith (txt "data: ")) (map line g ++ [[]]) = map line g.
Proof.
  induction g as [|e g IH]; cbn [map app List.filter]; [reflexivity|].
  unfold line at 1. rewrite startsWith_app. fold (line e). rewrite IH.
  reflexivity.
Qed.

Lemma handle_line_event (e : StreamEvent) (l : Client.Loop) :
  well_formed e -> Client.handle_line (line e) l = Client.on_event e l.
Proof.
  intros He. unfold Client.handle_line, line.
  rewrite remove_prefix_app, (parse_payload e He).
  destruct e as [c|f|m|]; simpl.
  - destruct c; reflexivity.
  - destruct f; reflexivity.
  - destruct m; reflexivity.
  - reflexivity.
Qed.

Lemma handle_chunk_events (g : list StreamEvent) (l : Client.Loop) :
  Forall well_formed g ->
  Client.handle_chunk (flat_map (fun e => utf8_encode (sse e)) g) l
  = fold_left (fun l e => Client.on_event e l) g l.
Proof.
  intros Hg. unfold Client.handle_chunk.
  rewrite (TextDecoder_lines g Hg), (split_lines g Hg), data_lines.
  revert l. induction Hg as [|e g He Hg IH]; intros l; cbn [map fold_left].
  - reflexivity.
  - rewrite (handle_line_event e l He). apply IH.
Qed.

(** ** The controller on a stream of whole events *)

Lemma setMessages_same (c : Client.ChatBot) :
  Client.setMessages (Client.messages c) c = c.
Proof. destruct c; reflexivity. Qed.

(** Content events grow the last message and nothing else. *)
Lemma on_contents (cs : list text) (l : Client.Loop) (base : list ChatMessage) :
  Forall (fun c => c <> []) cs ->
  Client.messages (Client.st l)
  = base ++ [mkMessage assistant (Client.assistantMessage l)] ->
  fold_left (fun l e => Client.on_event e l) (map EvContent cs) l
  = Client.mkLoop (Client.assistantMessage l ++ concat cs)
      (Client.responseFinished l)
      (Client.setMessages
         (base ++ [mkMessage assistant (Client.assistantMessage l ++ concat cs)])
         (Client.st l)).
Proof.
  intros Hcs. revert l. induction Hcs as [|c cs Hc Hcs IH]; intros l Hl.
  - cbn [map fold_left concat]. rewrite app_nil_r, <- Hl, setMessages_same.
    destruct l; reflexivity.
  - cbn [map fold_left concat]. rewrite IH.
    + unfold Client.on_event. destruct c as [|x c]; [contradiction|].
      cbn [is_empty Client.assistantMessage Client.responseFinished Client.st].
      rewrite <- !app_assoc. reflexivity.
    + unfold Client.on_event. destruct c as [|x c]; [contradiction|].
      cbn [is_empty Client.assistantMessage Client.st Client.setMessages Client.messages].
      rewrite Hl, removelast_last. reflexivity.
Qed.

(** How one read can cut the events of a run. *)
Lemma cut_script (cs : list text) (fr : text) (g rest : list StreamEvent) :
  g ++ rest = map EvContent cs ++ [EvFinish fr; EvDone] ->
  (exists cs1 cs2, cs = cs1 ++ cs2 /\ g = map EvContent cs1 /\
                   rest = map EvContent cs2 ++ [EvFinish fr; EvDone]) \/
  (exists tail, g = map EvContent cs ++ EvFinish fr :: tail /\
                (tail = [] \/ tail = [EvDone])).
Proof.
  revert g. induction cs as [|c cs IH]; intros g H; cbn [map app] in H.
  - destruct g as [|e1 [|e2 [|e3 g]]]; cbn [app] in H.
    + left. exists [], []. subst rest. auto.
    + injection H as -> ->. right. exists []. auto.
    + injection H as -> -> E. right. exists [EvDone]. auto.
    + injection H as _ _ E. discriminate E.
  - destruct g as [|e g]; cbn [app] in H.
    + left. exists [], (c :: cs). subst rest. auto.
    + injection H as -> H. destruct (IH g H) as [(cs1 & cs2 & -> & -> & ->) | (tail & -> & Ht)].
      * left. exists (c :: cs1), cs2. auto.
      * right. exists tail. auto.
Qed.

Lemma read_loop_script (fr : text) (fail : option text) (base : list ChatMessage)
    (groups : list (list StreamEvent)) :
  fr <> [] -> Forall scalar fr ->
  forall (cs : list text) (l : Client.Loop),
    concat groups = map EvContent cs ++ [EvFinish fr; EvDone] ->
    Forall (fun c => c <> []) cs -> Forall (Forall scalar) cs ->
    Client.responseFinished l = false ->
    Client.messages (Client.st l)
    = base ++ [mkMessage assistant (Client.assistantMessage l)] ->
    exists l',
      Client.read_loop (whole_events groups) fail l = (l', None) /\
      Client.st l'
      = Client.setMessages
          (base ++ [mkMessage assistant (Client.assistantMessage l ++ concat cs)])
          (Client.st l).
Proof.
  intros Hfr Sfr. induction groups as [|g groups IH]; intros cs l E Hne Hsc Hfin Hl.
  - cbn [concat] in E. destruct cs; discriminate E.
  - cbn [concat] in E. cbn [whole_events map Client.read_loop].
    assert (Wg : Forall well_formed g).
    { assert (W : Forall well_formed (g ++ concat groups)).
      { rewrite E. apply Forall_app. split.
        - apply Forall_map. exact Hsc.
        - repeat (apply List.Forall_cons); [exact Sfr | exact I | apply List.Forall_nil]. }
      apply Forall_app in W. destruct W as [W _]. exact W. }
    rewrite (handle_chunk_events g l Wg).
    destruct (cut_script cs fr g (concat groups) E)
      as [(cs1 & cs2 & -> & -> & E') | (tail & -> & Ht)].
    + apply Forall_app in Hne. destruct Hne as [Hne1 Hne2].
      apply Forall_app in Hsc. destruct Hsc as [Hsc1 Hsc2].
      rewrite (on_contents cs1 l base Hne1 Hl).
      cbn [Client.responseFinished]. rewrite Hfin.
      match goal with |- context [Client.read_loop _ _ ?l1] =>
        destruct (IH cs2 l1 E' Hne2 Hsc2 eq_refl eq_refl) as (l' & R & S)
      end.
      exists l'. split; [exact R|]. rewrite S.
      cbn [Client.assistantMessage Client.st].
      rewrite concat_app, <- app_assoc. reflexivity.
    + rewrite fold_left_app, (on_contents cs l base Hne Hl).
      destruct fr as [|x fr]; [contradiction|].
      destruct Ht as [-> | ->]; cbn [fold_left Client.on_event is_empty
        Client.assistantMessage Client.responseFinished Client.st];
        eexists; (split; [reflexivity|]); reflexivity.
Qed.

Lemma for_await_deltas (deltas : list text) (rest : list (Server.Await Server.Chunk))
    (w : list StreamEvent) (n : nat) :
  Server.for_await
    (map (fun d => Server.quiet (Server.mkChunk (Some d) None)) deltas ++ rest)
    (Server.mkResponse true false w) n
  = Server.for_await rest
      (Server.mkResponse true false (w ++ map EvContent (contents deltas)))
      (n + length deltas).
Proof.
  revert w n. induction deltas as [|d deltas IH]; intros w n.
  - cbn [map app contents List.filter length]. rewrite app_nil_r, Nat.add_0_r.
    reflexivity.
  - cbn [map app Server.for_await Server.resume Server.quiet Server.closed
         Server.value Server.writable Server.writableEnded orb negb].
    unfold Server.relay_chunk.
    cbn [Server.delta_content Server.chunk_finish_reason contents List.filter length].
    destruct d as [|x d]; cbn [is_empty negb].
    + rewrite IH. f_equal. lia.
    + unfold Server.res_write.
      cbn [Server.writable Server.writableEnded andb negb Server.written].
      rewrite IH. cbn [map]. rewrite <- app_assoc. f_equal. lia.
Qed.

Lemma relay_script (deltas : list text) (fr : text) :
  fr <> [] ->
  Server.relay (Server.script deltas fr) Server.fresh
  = Server.mkRelayed
      (Server.mkResponse true true
         (map EvContent (contents deltas) ++ [EvFinish fr; EvDone]))
      (S (length deltas)).
Proof.
  intros Hfr. unfold Server.relay, Server.script, Server.fresh.
  cbn [Server.create Server.chunks Server.finish Server.quiet Server.resume
       Server.closed Server.value].
  rewrite for_await_deltas.
  destruct fr as [|x fr]; [contradiction|].
  cbn. rewrite <- app_assoc. reflexivity.
Qed.

Lemma chat_stream_admitted
    (s : Server.State) (req : Server.Request) (now : Z) (up : Server.Upstream) :
  let d := fst (RateLimiter.admit_request Server.chatLimiter (Server.chatStore s)
                  (Server.ip req) now) in
  RateLimiter.allowed d = true ->
  Server.invalid (Server.messages req) = false ->
  snd (Server.chat_stream s req now up)
  = Server.EventStream
      (mkHeaders (Some (RateLimiter.limit d)) (Some (RateLimiter.remaining d))
         (Some (RateLimiter.resetAt d)))
      (Server.relay up Server.fresh).
Proof.
  intros d. subst d. unfold Server.chat_stream.
  destruct (RateLimiter.admit_request Server.chatLimiter (Server.chatStore s)
              (Server.ip req) now) as [d store'].
  cbn [fst]. intros -> ->. reflexivity.
Qed.

(** C1, for deliveries that keep events whole.  For an admitted request
    with a well-formed conversation, a provider that emits text deltas and
    then a finish signal, and a client that stays connected, the relay
    writes one content event per non-empty delta, in order, then the finish
    event and [done]; and when every read of the client carries whole
    events, [sendMessage] ends with the posted conversation followed by
    exactly one assistant message, the concatenation of the contents, with
    no error shown and the typing indicator cleared (the state
    [Completed]). *)
Theorem streaming_reconstruction
    (s : Server.State) (ip : string) (now : Z) (c : Client.ChatBot)
    (deltas : list text) (fr : text) :
  is_empty (trim (Client.input c)) = false ->
  Client.isTyping c = false ->
  Client.isRateLimited c = false ->
  RateLimiter.allowed
    (fst (RateLimiter.admit_request Server.chatLimiter (Server.chatStore s) ip now)) = true ->
  Forall (Forall scalar) deltas -> Forall scalar fr -> fr <> [] ->
  let posted := Client.messages c ++ [mkMessage user (trim (Client.input c))] in
  exists h out,
    snd (Server.chat_stream s (Server.mkRequest ip (Server.Array posted)) now
           (Server.script deltas fr))
    = Server.EventStream h out /\
    Server.written (Server.res out)
    = map EvContent (contents deltas) ++ [EvFinish fr; EvDone] /\
    forall (groups : list (list StreamEvent)) (fail : option text),
      concat groups = Server.written (Server.res out) ->
      let r := Client.sendMessage c (streamed h (whole_events groups) fail) in
      snd r = Some posted /\
      Client.messages (fst r)
      = posted ++ [mkMessage assistant (concat (contents deltas))] /\
      Client.error (fst r) = None /\
      Client.isTyping (fst r) = false /\
      Client.terminal_state (fst r) = Client.Completed.
Proof.
  intros Hin Hty Hrl Hadm Hsc Sfr Hfr posted.
  assert (Hvalid : Server.invalid (Server.Array posted) = false).
  { subst posted. destruct (Client.messages c); reflexivity. }
  rewrite (chat_stream_admitted s (Server.mkRequest ip (Server.Array posted))
             now (Server.script deltas fr) Hadm Hvalid).
  rewrite (relay_script deltas fr Hfr).
  eexists _, _. split; [reflexivity|]. cbn [Server.res Server.written].
  split; [reflexivity|].
  intros groups fail Hgroups.
  unfold Client.sendMessage. rewrite Hin, Hty, Hrl. cbn [orb].
  cbn [fst snd]. split; [reflexivity|].
  unfold streamed, Client.try_send.
  cbn [Client.status Client.headers Client.body Client.reads Client.failure
       Z.eqb Pos.eqb Client.ok Z.leb Z.compare Pos.compare Pos.compare_cont
       andb negb].
  match goal with |- context [Client.read_loop _ _ ?l0] =>
    destruct (read_loop_script fr fail posted groups Hfr Sfr (contents deltas) l0)
      as (l' & R & S)
  end.
  - exact Hgroups.
  - apply List.Forall_forall. intros x Hx. apply filter_In in Hx.
    destruct Hx as [_ Hx]. destruct x; [discriminate Hx | discriminate].
  - apply List.Forall_forall. intros x Hx. apply filter_In in Hx.
    destruct Hx as [Hx _]. rewrite List.Forall_forall in Hsc. apply Hsc. exact Hx.
  - reflexivity.
  - reflexivity.
  - rewrite R, S. cbn. auto.
Qed.

Lemma streaming_reconstruction_witness :
  let c := Client.mkChatBot [] (txt "hi") false
             (Client.mkRateLimit 1 1 None false) None in
  let posted := [mkMessage user (txt "hi")] in
  exists h out,
    snd (Server.chat_stream Server.start
           (Server.mkRequest "10.0.0.1"%string (Server.Array posted)) 0
           (Server.script [txt "Hel"; []; txt "lo"] (txt "stop")))
    = Server.EventStream h out /\
    Server.written (Server.res out)
    = [EvContent (txt "Hel"); EvContent (txt "lo"); EvFinish (txt "stop"); EvDone] /\
    forall (groups : list (list StreamEvent)) (fail : option text),
      concat groups = Server.written (Server.res out) ->
      let r := Client.sendMessage c (streamed h (whole_events groups) fail) in
      snd r = Some posted /\
      Client.messages (fst r) = posted ++ [mkMessage assistant (txt "Hello")] /\
      Client.error (fst r) = None /\
      Client.isTyping (fst r) = false /\
      Client.terminal_state (fst r) = Client.Completed.
Proof.
  apply (streaming_reconstruction Server.start "10.0.0.1"%string 0
           (Client.mkChatBot [] (txt "hi") false
              (Client.mkRateLimit 1 1 None false) None)
           [txt "Hel"; []; txt "lo"] (txt "stop")).
  - reflexivity.
  - reflexivity.
  - reflexivity.
  - reflexivity.
  - repeat (apply List.Forall_cons; [apply scalar_literal; reflexivity|]).
    apply List.Forall_nil.
  - apply scalar_literal. reflexivity.
  - discriminate.
Defined.

(** C1 as stated, for every delivery of the bytes, fails: a read that
    ends inside an event loses that event.  The relay's bytes for the
    deltas "Hel" and "lo", read in two chunks cut after 20 bytes, leave the
    assistant message "lo". *)
Lemma split_event_loses_content :
  ~ (forall (c : Client.ChatBot) (deltas : list text) (fr : text)
            (h : RateLimitHeaders) (rs : list (list Z)) (fail : option text),
        is_empty (trim (Client.input c)) = false ->
        Client.isTyping c = false ->
        Client.isRateLimited c = false ->
        Forall (Forall scalar) deltas -> Forall scalar fr -> fr <> [] ->
        concat rs
        = Server.wire (Server.res (Server.relay (Server.script deltas fr)
                                     Server.fresh)) ->
        Client.messages (fst (Client.sendMessage c (streamed h rs fail)))
        = Client.messages c
            ++ [mkMessage user (trim (Client.input c));
                mkMessage assistant (concat (contents deltas))]).
Proof.
  intros H.
  pose (bs := Server.wire (Server.res (Server.relay
                 (Server.script [txt "Hel"; txt "lo"] (txt "stop")) Server.fresh))).
  specialize (H (Client.mkChatBot [] (txt "hi") false
                   (Client.mkRateLimit 1 1 None false) None)
                [txt "Hel"; txt "lo"] (txt "stop")
                (mkHeaders (Some 1) (Some 0) (Some 60000))
                [take 20 bs; drop 20 bs] None).
  assert (E : Client.messages
                (fst (Client.sendMessage
                        (Client.mkChatBot [] (txt "hi") false
                           (Client.mkRateLimit 1 1 None false) None)
                        (streamed (mkHeaders (Some 1) (Some 0) (Some 60000))
                           [take 20 bs; drop 20 bs] None)))
              = [mkMessage user (txt "hi"); mkMessage assistant (txt "lo")])
    by (vm_compute; reflexivity).
  rewrite E in H.
  assert (F : [mkMessage user (txt "hi"); mkMessage assistant (txt "lo")]
              = [mkMessage user (txt "hi"); mkMessage assistant (txt "Hello")]).
  { apply H; try reflexivity.
    - repeat (apply List.Forall_cons; [apply scalar_literal; reflexivity|]).
      apply List.Forall_nil.
    - apply scalar_literal. reflexivity.
    - discriminate. }
  discriminate F.
Qed.

(** ** Chunk boundaries and error events, on concrete streams *)

(** C2 fails on the code.  The decoder is called without the [stream]
    option, so the two bytes of U+00E9, split over two reads, decode to two
    U+FFFD; and the event cut by the boundary is lost: the same bytes that
    give the assistant message "é" in one read give the empty message in
    two. *)
Lemma split_character_is_replaced :
  let c := Client.mkChatBot [] (txt "hi") false
             (Client.mkRateLimit 1 1 None false) None in
  let h := mkHeaders (Some 1) (Some 0) (Some 60000) in
  let bs := Server.wire (Server.res (Server.relay
              (Server.script [[233]] (txt "stop")) Server.fresh)) in
  take 19 bs ++ drop 19 bs = bs /\
  TextDecoder_decode [195; 169] = [233] /\
  TextDecoder_decode [195] ++ TextDecoder_decode [169] = [65533; 65533] /\
  TextDecoder_decode (take 19 bs) ++ TextDecoder_decode (drop 19 bs)
  <> TextDecoder_decode bs /\
  Client.messages (fst (Client.sendMessage c (streamed h [bs] None)))
  = [mkMessage user (txt "hi"); mkMessage assistant [233]] /\
  Client.messages
    (fst (Client.sendMessage c (streamed h [take 19 bs; drop 19 bs] None)))
  = [mkMessage user (txt "hi"); mkMessage assistant []].
Proof.
  cbv zeta. repeat split; try (vm_compute; reflexivity).
  vm_compute. discriminate.
Qed.

(** C3 fails on the code.  An [error] event ends the stream with the
    error shown (the state [Errored]), but the [catch] block that restores
    the conversation is not reached: the placeholder stays, with the
    content streamed into it. *)
Lemma error_event_keeps_placeholder :
  let c := Client.mkChatBot [] (txt "hi") false
             (Client.mkRateLimit 1 1 None false) None in
  let h := mkHeaders (Some 1) (Some 0) (Some 60000) in
  let rs := whole_events [[EvContent (txt "par")]; [EvError (txt "boom")]] in
  let after := fst (Client.sendMessage c (streamed h rs None)) in
  Client.error after = Some (txt "Error: boom") /\
  Client.terminal_state after = Client.Errored /\
  Client.isTyping after = false /\
  Client.messages after
  = [mkMessage user (txt "hi"); mkMessage assistant (txt "par")] /\
  Client.messages after <> [mkMessage user (txt "hi")].
Proof.
  cbv zeta. repeat split; try (vm_compute; reflexivity).
  vm_compute. discriminate.
Qed.

(** * Further properties of the code *)

(** ** Further properties of the relay *)

Lemma resume_writable {A} (a : Server.Await A) (r : Server.Response) :
  Server.writable (Server.resume a r) = Server.writable r.
Proof. unfold Server.resume. destruct (Server.closed a); reflexivity. Qed.

Lemma res_write_writable (e : StreamEvent) (r : Server.Response) :
  Server.writable (Server.res_write e r) = Server.writable r.
Proof.
  unfold Server.res_write.
  destruct (Server.writable r && negb (Server.writableEnded r)); reflexivity.
Qed.

Lemma relay_chunk_writable (c : Server.Chunk) (r : Server.Response) :
  Server.writable (Server.relay_chunk c r) = Server.writable r.
Proof.
  unfold Server.relay_chunk.
  destruct (Server.delta_content c) as [s|], (Server.chunk_finish_reason c) as [f|];
    repeat match goal with |- context [is_empty ?x] => destruct (is_empty x) end;
    rewrite ?res_write_writable; reflexivity.
Qed.

Lemma for_await_writable (cs : list (Server.Await Server.Chunk))
    (r : Server.Response) (n : nat) :
  Server.writable (fst (fst (Server.for_await cs r n))) = Server.writable r.
Proof.
  revert r n. induction cs as [|a cs IH]; intros r n; simpl; [reflexivity|].
  destruct (Server.writableEnded (Server.resume a r)
            || negb (Server.writable (Server.resume a r))); simpl.
  - apply resume_writable.
  - rewrite IH, relay_chunk_writable. apply resume_writable.
Qed.

Lemma catch_ended (m : option text) (r : Server.Response) :
  Server.writable r = true ->
  Server.writableEnded (Server.catch m r) = true.
Proof.
  intros W. unfold Server.catch. rewrite W. simpl.
  destruct (Server.writableEnded r) eqn:E; simpl; [exact E | reflexivity].
Qed.

(** Every stream that is opened is ended when the handler is through. *)
Theorem stream_is_always_ended
    (s : Server.State) (req : Server.Request) (now : Z) (up : Server.Upstream)
    (h : RateLimitHeaders) (out : Server.Relayed) :
  snd (Server.chat_stream s req now up) = Server.EventStream h out ->
  Server.writableEnded (Server.res out) = true.
Proof.
  intros Hs. apply chat_stream_relay in Hs. subst out. unfold Server.relay.
  set (r1 := Server.resume (Server.create up) Server.fresh).
  assert (W1 : Server.writable r1 = true) by (subst r1; apply resume_writable).
  destruct (Server.value (Server.create up)) as [|m].
  - pose proof (for_await_writable (Server.chunks up) r1 0) as W2.
    destruct (Server.for_await (Server.chunks up) r1 0) as [[r2 n] broke].
    simpl in W2. rewrite W1 in W2.
    destruct broke; [reflexivity|].
    destruct (Server.value (Server.finish up)) as [|m]; [reflexivity|].
    cbn [Server.res]. apply catch_ended. rewrite resume_writable. exact W2.
  - cbn [Server.res]. apply catch_ended. exact W1.
Qed.

Lemma relay_chunk_events (c : Server.Chunk) (r : Server.Response) :
  Server.carries r = true ->
  Server.written (Server.relay_chunk c r)
  = Server.written r ++ Server.chunk_events c.
Proof.
  intros C. unfold Server.relay_chunk, Server.chunk_events, Server.nonempty.
  destruct (Server.delta_content c) as [s|]; cbn [default negb].
  - destruct (is_empty s) eqn:Es; cbn [negb app].
    + destruct (Server.chunk_finish_reason c) as [f|]; [|rewrite app_nil_r; reflexivity].
      destruct (is_empty f); cbn [negb default];
        [rewrite app_nil_r; reflexivity|].
      rewrite res_write_written, C. reflexivity.
    + destruct (Server.chunk_finish_reason c) as [f|].
      * destruct (is_empty f); cbn [negb default].
        -- rewrite res_write_written, C. reflexivity.
        -- rewrite !res_write_written, res_write_carries, C.
           rewrite <- app_assoc. reflexivity.
      * rewrite res_write_written, C. reflexivity.
  - destruct (Server.chunk_finish_reason c) as [f|]; [|rewrite app_nil_r; reflexivity].
    destruct (is_empty f); cbn [negb default app];
      [rewrite app_nil_r; reflexivity|].
    rewrite res_write_written, C. reflexivity.
Qed.

Lemma for_await_connected_events (cs : list (Server.Await Server.Chunk))
    (r : Server.Response) (n : nat) :
  Forall (fun a => Server.closed a = false) cs ->
  Server.carries r = true ->
  Server.written (fst (fst (Server.for_await cs r n)))
  = Server.written r ++ flat_map (fun a => Server.chunk_events (Server.value a)) cs.
Proof.
  intros Hcs. revert r n.
  induction Hcs as [|a cs Ha Hcs IH]; intros r n C; cbn [Server.for_await flat_map].
  - rewrite app_nil_r. reflexivity.
  - unfold Server.resume. rewrite Ha. rewrite check_is_not_carries, C.
    cbn [negb]. rewrite IH by (rewrite relay_chunk_carries; exact C).
    rewrite (relay_chunk_events _ _ C), <- app_assoc. reflexivity.
Qed.

(** With the client connected, the events are, chunk by chunk and in
    order, the content and the finish reason of each chunk, and then
    [done] when the provider completes or [error] with the message when it
    fails; every chunk is taken from the provider. *)
Theorem relay_of_connected_client (up : Server.Upstream) :
  Server.transport_open up ->
  let out := Server.relay up Server.fresh in
  let evs := flat_map (fun a => Server.chunk_events (Server.value a))
               (Server.chunks up) in
  (Server.completes up ->
   Server.written (Server.res out) = evs ++ [EvDone] /\
   Server.pulled out = length (Server.chunks up)) /\
  (forall m, Server.value (Server.create up) = Server.Fulfilled ->
             Server.value (Server.finish up) = Server.Rejected m ->
   Server.written (Server.res out) = evs ++ [EvError (Server.error_message m)] /\
   Server.pulled out = length (Server.chunks up)) /\
  (forall m, Server.value (Server.create up) = Server.Rejected m ->
   Server.written (Server.res out) = [EvError (Server.error_message m)] /\
   Server.pulled out = 0%nat).
Proof.
  intros [Hc Hrest] out evs.
  assert (R1 : Server.resume (Server.create up) Server.fresh = Server.fresh)
    by (unfold Server.resume; rewrite Hc; reflexivity).
  assert (Hloop : Server.value (Server.create up) = Server.Fulfilled ->
            exists r2, Server.for_await (Server.chunks up) Server.fresh 0
                       = (r2, length (Server.chunks up), false)
                       /\ Server.carries r2 = true /\ Server.written r2 = evs
                       /\ Server.closed (Server.finish up) = false).
  { intros Cc. destruct (Hrest Cc) as [Hcs Hf].
    destruct (for_await_connected (Server.chunks up) Server.fresh 0 Hcs eq_refl)
      as (B & C & P).
    pose proof (for_await_connected_events (Server.chunks up) Server.fresh 0
                  Hcs eq_refl) as E.
    destruct (Server.for_await (Server.chunks up) Server.fresh 0) as [[r2 n] broke].
    simpl in *. subst. exists r2. auto. }
  subst out. unfold Server.relay. rewrite R1. split; [|split].
  - intros [Cc Cf]. destruct (Hloop Cc) as (r2 & -> & C & E & Hf).
    rewrite Cc, Cf. unfold Server.resume. rewrite Hf.
    cbn [Server.res Server.pulled Server.written Server.res_end].
    rewrite res_write_written, C, E. auto.
  - intros m Cc Cf. destruct (Hloop Cc) as (r2 & -> & C & E & Hf).
    rewrite Cc, Cf. unfold Server.resume. rewrite Hf.
    cbn [Server.res Server.pulled]. unfold Server.catch.
    fold (Server.carries r2). rewrite C.
    cbn [Server.written Server.res_end]. rewrite res_write_written, C, E. auto.
  - intros m Cc. rewrite Cc. auto.
Qed.

Lemma for_await_mute (cs : list (Server.Await Server.Chunk))
    (r : Server.Response) (n : nat) :
  Server.carries r = false ->
  Server.carries (fst (fst (Server.for_await cs r n))) = false /\
  Server.written (fst (fst (Server.for_await cs r n))) = Server.written r.
Proof.
  intros C. destruct cs as [|a cs]; simpl; [auto|].
  assert (C1 : Server.carries (Server.resume a r) = false).
  { unfold Server.resume. destruct (Server.closed a);
      [apply res_end_carries | exact C]. }
  rewrite check_is_not_carries, C1. simpl. split; [exact C1|].
  unfold Server.resume. destruct (Server.closed a); reflexivity.
Qed.

Lemma for_await_closed (cs : list (Server.Await Server.Chunk))
    (r : Server.Response) (n : nat) :
  Exists (fun a => Server.closed a = true) cs ->
  Server.carries (fst (fst (Server.for_await cs r n))) = false.
Proof.
  intros Hex. revert r n. induction Hex as [a cs Ha | a cs Hex IH]; intros r n;
    cbn [Server.for_await]; rewrite check_is_not_carries.
  - unfold Server.resume. rewrite Ha. rewrite res_end_carries. simpl.
    apply res_end_carries.
  - destruct (Server.carries (Server.resume a r)) eqn:C; simpl.
    + apply IH.
    + exact C.
Qed.

Lemma catch_mute (m : option text) (r : Server.Response) :
  Server.carries r = false -> Server.catch m r = r.
Proof. unfold Server.catch, Server.carries. intros ->. reflexivity. Qed.

(** A [close] event at any suspension of the handler (while the provider
    is called, while a chunk is awaited, or while the end of the sequence is
    awaited) leaves the response without a terminal event; when it comes
    while the provider is called, nothing at all is written. *)
Theorem no_terminal_event_after_close (up : Server.Upstream) :
  Server.disconnected up ->
  let w := Server.written (Server.res (Server.relay up Server.fresh)) in
  Server.quiet_events w /\
  (Server.closed (Server.create up) = true -> w = []).
Proof.
  intros Hd w. subst w. unfold Server.relay.
  set (r1 := Server.resume (Server.create up) Server.fresh).
  assert (W1 : Server.written r1 = []).
  { subst r1. unfold Server.resume. destruct (Server.closed (Server.create up)); reflexivity. }
  assert (C1 : Server.closed (Server.create up) = true -> Server.carries r1 = false).
  { intros Hc. subst r1. unfold Server.resume. rewrite Hc. apply res_end_carries. }
  destruct (Server.value (Server.create up)) as [|m] eqn:Ec.
  - pose proof (for_await_written (Server.chunks up) r1 0) as (evs & E & Q).
    rewrite W1 in E. cbn [app] in E.
    assert (Hmute :
              Server.closed (Server.create up) = true ->
              Server.carries (fst (fst (Server.for_await (Server.chunks up) r1 0))) = false
              /\ evs = []).
    { intros Hc. destruct (for_await_mute (Server.chunks up) r1 0 (C1 Hc)) as [C W].
      split; [exact C|]. rewrite W, W1 in E. symmetry. exact E. }
    assert (Hlast :
              Server.carries (fst (fst (Server.for_await (Server.chunks up) r1 0))) = false
              \/ (snd (Server.for_await (Server.chunks up) r1 0) = false
                  /\ Server.closed (Server.finish up) = true)).
    { destruct Hd as [Hc | (_ & [Hex | Hf])].
      - left. apply Hmute. exact Hc.
      - left. apply for_await_closed. exact Hex.
      - destruct (snd (Server.for_await (Server.chunks up) r1 0)) eqn:B.
        + left. apply for_await_broke. exact B.
        + right. auto. }
    destruct (Server.for_await (Server.chunks up) r1 0) as [[r2 n] broke].
    cbn [fst snd] in *.
    assert (Hw : Server.written
                   (Server.res
                      (if broke
                       then Server.mkRelayed (Server.res_end (Server.res_write EvDone r2)) n
                       else
                         match Server.value (Server.finish up) with
                         | Server.Fulfilled =>
                             Server.mkRelayed
                               (Server.res_end
                                  (Server.res_write EvDone
                                     (Server.resume (Server.finish up) r2))) n
                         | Server.Rejected m =>
                             Server.mkRelayed
                               (Server.catch m (Server.resume (Server.finish up) r2)) n
                         end)) = evs).
    { destruct Hlast as [C | [-> Hf]].
      - assert (C3 : Server.carries (Server.resume (Server.finish up) r2) = false).
        { unfold Server.resume. destruct (Server.closed (Server.finish up));
            [apply res_end_carries | exact C]. }
        assert (W3 : Server.written (Server.resume (Server.finish up) r2) = evs).
        { unfold Server.resume. destruct (Server.closed (Server.finish up)); exact E. }
        destruct broke.
        + cbn [Server.res Server.written Server.res_end].
          rewrite res_write_mute by exact C. exact E.
        + destruct (Server.value (Server.finish up)) as [|m];
            cbn [Server.res Server.written Server.res_end].
          * rewrite res_write_mute by exact C3. exact W3.
          * rewrite catch_mute by exact C3. exact W3.
      - unfold Server.resume. rewrite Hf.
        destruct (Server.value (Server.finish up)) as [|m];
          cbn [Server.res Server.written Server.res_end].
        + rewrite res_write_mute by apply res_end_carries. exact E.
        + rewrite catch_mute by apply res_end_carries. exact E. }
    rewrite Hw. split; [exact Q|]. intros Hc. apply Hmute. exact Hc.
  - destruct Hd as [Hc | (Hf & _)]; [|rewrite Ec in Hf; discriminate Hf].
    cbn [Server.res]. rewrite catch_mute by (apply C1; exact Hc).
    rewrite W1. split; [constructor | reflexivity].
Qed.

Lemma error_message_nonempty (m : option text) : Server.error_message m <> [].
Proof.
  unfold Server.error_message, Server.nonempty.
  destruct m as [[|c t]|]; simpl; discriminate.
Qed.

Lemma quiet_event_in (evs : list StreamEvent) (e : StreamEvent) :
  Server.quiet_events evs -> In e evs -> is_terminal e = false.
Proof.
  unfold Server.quiet_events. rewrite List.Forall_forall. intros H Hin.
  apply H. exact Hin.
Qed.

(** The terminal events tell what happened: [done] is on the response
    only when the provider completed, and an [error] event only when the
    provider failed; its message is the provider's, or "Unknown error"
    when that is missing or empty, and never the empty string. *)
Theorem terminal_events_are_truthful (up : Server.Upstream) :
  let w := Server.written (Server.res (Server.relay up Server.fresh)) in
  (In EvDone w -> Server.completes up) /\
  (forall m, In (EvError m) w ->
             m <> [] /\
             exists m0, Server.fails up m0 /\ m = Server.error_message m0).
Proof.
  intros w. subst w. unfold Server.relay, Server.completes, Server.fails.
  set (r1 := Server.resume (Server.create up) Server.fresh).
  assert (W1 : Server.written r1 = []).
  { subst r1. unfold Server.resume. destruct (Server.closed (Server.create up)); reflexivity. }
  assert (Hcatch : forall m0 r evs e,
             Server.written r = evs -> Server.quiet_events evs ->
             In e (Server.written (Server.catch m0 r)) -> is_terminal e = true ->
             e = EvError (Server.error_message m0)).
  { intros m0 r evs e <- Q Hin Ht. unfold Server.catch in Hin.
    fold (Server.carries r) in Hin. destruct (Server.carries r) eqn:C.
    - cbn [Server.written Server.res_end] in Hin.
      rewrite res_write_written, C in Hin. apply in_app_or in Hin.
      destruct Hin as [Hin | [<- | []]]; [|reflexivity].
      rewrite (quiet_event_in _ _ Q Hin) in Ht. discriminate Ht.
    - rewrite (quiet_event_in _ _ Q Hin) in Ht. discriminate Ht. }
  assert (Hdone : forall r evs e,
             Server.written r = evs -> Server.quiet_events evs ->
             In e (Server.written (Server.res_write EvDone r)) ->
             is_terminal e = true -> e = EvDone /\ Server.carries r = true).
  { intros r evs e <- Q Hin Ht. rewrite res_write_written in Hin.
    destruct (Server.carries r) eqn:C.
    - apply in_app_or in Hin. destruct Hin as [Hin | [<- | []]]; [|auto].
      rewrite (quiet_event_in _ _ Q Hin) in Ht. discriminate Ht.
    - rewrite (quiet_event_in _ _ Q Hin) in Ht. discriminate Ht. }
  destruct (Server.value (Server.create up)) as [|m0].
  - pose proof (for_await_written (Server.chunks up) r1 0) as (evs & E & Q).
    rewrite W1 in E. cbn [app] in E.
    pose proof (for_await_broke (Server.chunks up) r1 0) as B.
    destruct (Server.for_await (Server.chunks up) r1 0) as [[r2 n] broke].
    cbn [fst snd] in *.
    assert (W3 : Server.written (Server.resume (Server.finish up) r2) = evs).
    { unfold Server.resume. destruct (Server.closed (Server.finish up)); exact E. }
    destruct broke.
    + cbn [Server.res Server.written Server.res_end]. split.
      * intros Hin. destruct (Hdone r2 evs EvDone E Q Hin eq_refl) as [_ C].
        rewrite (B eq_refl) in C. discriminate C.
      * intros m Hin. destruct (Hdone r2 evs (EvError m) E Q Hin eq_refl) as [H _].
        discriminate H.
    + destruct (Server.value (Server.finish up)) as [|m0];
        cbn [Server.res Server.written Server.res_end].
      * split; [auto|]. intros m Hin.
        destruct (Hdone _ evs (EvError m) W3 Q Hin eq_refl) as [H _].
        discriminate H.
      * split.
        -- intros Hin. pose proof (Hcatch m0 _ evs EvDone W3 Q Hin eq_refl) as H.
           discriminate H.
        -- intros m Hin. pose proof (Hcatch m0 _ evs (EvError m) W3 Q Hin eq_refl) as H.
           injection H as ->. split; [apply error_message_nonempty|].
           exists m0. auto.
  - cbn [Server.res]. split.
    + intros Hin.
      pose proof (Hcatch m0 r1 [] EvDone W1 (List.Forall_nil _) Hin eq_refl) as H.
      discriminate H.
    + intros m Hin.
      pose proof (Hcatch m0 r1 [] (EvError m) W1 (List.Forall_nil _) Hin eq_refl) as H.
      injection H as ->. split; [apply error_message_nonempty|].
      exists m0. auto.
Qed.

(** The body the [handler] option of [chatLimiter] sends, for any
    decision of the limiter and any reading of the clock: status 429, the
    limiter's counters, and a retry delay that is positive: the time left
    to the reset when that is in the future, and 60000 ms otherwise. *)
Theorem retry_after_is_positive (d : RateLimiter.Decision) (now : Z) :
  exists ms,
    Server.chatLimiter_handler d now
    = Server.Json 429
        (Server.TooManyRequests (txt "Too many requests")
           (RateLimiter.limit d) (RateLimiter.remaining d)
           (RateLimiter.resetAt d) ms) /\
    0 < ms /\
    (now < RateLimiter.resetAt d -> ms = RateLimiter.resetAt d - now) /\
    (RateLimiter.resetAt d <= now -> ms = 60000).
Proof.
  unfold Server.chatLimiter_handler.
  destruct (Z.ltb_spec 0 (RateLimiter.resetAt d - now)).
  - exists (RateLimiter.resetAt d - now). repeat split; lia.
  - exists 60000. repeat split; lia.
Qed.

(** ** Trimming *)

Lemma trimStart_split (s : text) :
  exists p, s = p ++ trimStart s /\ forallb is_white_space p = true.
Proof.
  induction s as [|c s (p & E & W)]; simpl.
  - exists []. auto.
  - destruct (is_white_space c) eqn:Hc.
    + exists (c :: p). simpl. rewrite Hc, W. split; [f_equal; exact E | reflexivity].
    + exists []. auto.
Qed.

Lemma trimStart_head (s r : text) (x : Z) :
  trimStart s = x :: r -> is_white_space x = false.
Proof.
  induction s as [|c s IH]; simpl; [discriminate|].
  destruct (is_white_space c) eqn:Hc; [exact IH|].
  intros E. injection E as <- _. exact Hc.
Qed.

Lemma trimStart_blank (s : text) :
  trimStart s = [] <-> forallb is_white_space s = true.
Proof.
  induction s as [|c s IH]; simpl; [tauto|].
  destruct (is_white_space c); simpl; [exact IH|].
  split; discriminate.
Qed.

Lemma forallb_rev {A} (f : A -> bool) (l : list A) :
  forallb f (rev l) = forallb f l.
Proof.
  induction l as [|x l IH]; simpl; [reflexivity|].
  rewrite forallb_app, IH. simpl. rewrite andb_true_r. apply andb_comm.
Qed.

(** [trim] cuts white space off both ends and nothing else. *)
Lemma trim_spec (s : text) :
  exists p q,
    s = p ++ trim s ++ q /\
    forallb is_white_space p = true /\ forallb is_white_space q = true /\
    (forall x r, trim s = x :: r -> is_white_space x = false) /\
    (forall x r, trim s = r ++ [x] -> is_white_space x = false).
Proof.
  destruct (trimStart_split s) as (p & Es & Wp).
  destruct (trimStart_split (rev (trimStart s))) as (p' & Er & Wp').
  unfold trim. set (u := trimStart (rev (trimStart s))) in *.
  assert (Et : trimStart s = rev u ++ rev p').
  { rewrite <- (rev_involutive (trimStart s)), Er, rev_app_distr. reflexivity. }
  exists p, (rev p'). repeat split.
  - rewrite <- Et. exact Es.
  - exact Wp.
  - rewrite forallb_rev. exact Wp'.
  - intros x r E. rewrite E in Et. eapply trimStart_head. exact Et.
  - intros x r E.
    assert (Eu : u = x :: rev r).
    { rewrite <- (rev_involutive u), E, rev_app_distr. reflexivity. }
    eapply trimStart_head. exact Eu.
Qed.

Lemma trim_blank (s : text) :
  is_empty (trim s) = true <-> forallb is_white_space s = true.
Proof.
  split.
  - intros H. destruct (trim_spec s) as (p & q & E & Wp & Wq & _).
    destruct (trim s); [|discriminate H]. rewrite E. cbn [app].
    rewrite forallb_app, Wp, Wq. reflexivity.
  - intros H. unfold trim.
    assert (E : trimStart s = []) by (apply trimStart_blank; exact H).
    rewrite E. reflexivity.
Qed.

(** The send gate, in full: [sendMessage] does nothing exactly when the
    input is blank, a request is in flight, the last answer was a 429, or
    no request remains; the component is then unchanged. *)
Theorem send_gate (c : Client.ChatBot) (f : Client.Fetch) :
  (snd (Client.sendMessage c f) = None <->
   forallb is_white_space (Client.input c) = true \/
   Client.isTyping c = true \/
   Client.isLimited (Client.rateLimit c) = true \/
   Client.remaining (Client.rateLimit c) <= 0) /\
  (snd (Client.sendMessage c f) = None -> fst (Client.sendMessage c f) = c).
Proof.
  unfold Client.sendMessage, Client.isRateLimited.
  pose proof (trim_blank (Client.input c)) as T.
  destruct (is_empty (trim (Client.input c))) eqn:E1; cbn [orb snd fst].
  { split; [|reflexivity]. split; [|reflexivity]. intros _. left. apply T. reflexivity. }
  destruct (Client.isTyping c) eqn:E2; cbn [orb snd fst].
  { split; [|reflexivity]. split; auto. }
  destruct (Client.isLimited (Client.rateLimit c)) eqn:E3; cbn [orb snd fst].
  { split; [|reflexivity]. split; auto. }
  destruct (Z.leb_spec (Client.remaining (Client.rateLimit c)) 0); cbn [snd fst].
  { split; [|reflexivity]. split; auto. }
  split; [|discriminate]. split; [discriminate|].
  intros [H' | [H' | [H' | H']]]; try discriminate H'; try lia.
  apply T in H'. discriminate H'.
Qed.

(** ** What the read loop keeps, for any bytes *)

Lemma handle_line_keeps (ln : text) (l : Client.Loop) (base : list ChatMessage) :
  Client.messages (Client.st l)
  = base ++ [mkMessage assistant (Client.assistantMessage l)] ->
  let l' := Client.handle_line ln l in
  Client.messages (Client.st l')
  = base ++ [mkMessage assistant (Client.assistantMessage l')] /\
  Client.input (Client.st l') = Client.input (Client.st l) /\
  Client.isTyping (Client.st l') = Client.isTyping (Client.st l) /\
  Client.rateLimit (Client.st l') = Client.rateLimit (Client.st l).
Proof.
  intros Hl. unfold Client.handle_line.
  destruct (JSON_parse (remove_prefix (txt "data: ") ln)) as [data|]; [|auto].
  destruct (truthy (get_property data (txt "content")));
    destruct (truthy (get_property data (txt "finish_reason"))
              || truthy (get_property data (txt "done")));
    destruct (truthy (get_property data (txt "error")));
    cbn [Client.st Client.assistantMessage Client.setMessages Client.setError
         Client.messages Client.input Client.isTyping Client.rateLimit];
    rewrite ?Hl, ?removelast_last; auto.
Qed.

Lemma handle_lines_keep (lns : list text) (l : Client.Loop) (base : list ChatMessage) :
  Client.messages (Client.st l)
  = base ++ [mkMessage assistant (Client.assistantMessage l)] ->
  let l' := fold_left (fun l ln => Client.handle_line ln l) lns l in
  Client.messages (Client.st l')
  = base ++ [mkMessage assistant (Client.assistantMessage l')] /\
  Client.input (Client.st l') = Client.input (Client.st l) /\
  Client.isTyping (Client.st l') = Client.isTyping (Client.st l) /\
  Client.rateLimit (Client.st l') = Client.rateLimit (Client.st l).
Proof.
  revert l. induction lns as [|ln lns IH]; intros l Hl; cbn [fold_left].
  - auto.
  - destruct (handle_line_keeps ln l base Hl) as (M & I & T & R).
    destruct (IH _ M) as (M' & I' & T' & R').
    cbv zeta in *. rewrite I', T', R'. auto.
Qed.

Lemma read_loop_keeps (rs : list (list Z)) (fail : option text)
    (l : Client.Loop) (base : list ChatMessage) :
  Client.messages (Client.st l)
  = base ++ [mkMessage assistant (Client.assistantMessage l)] ->
  let l' := fst (Client.read_loop rs fail l) in
  Client.messages (Client.st l')
  = base ++ [mkMessage assistant (Client.assistantMessage l')] /\
  Client.input (Client.st l') = Client.input (Client.st l) /\
  Client.isTyping (Client.st l') = Client.isTyping (Client.st l) /\
  Client.rateLimit (Client.st l') = Client.rateLimit (Client.st l).
Proof.
  revert l. induction rs as [|v rs IH]; intros l Hl; cbn [Client.read_loop].
  - destruct fail; cbn [fst Client.st Client.assistantMessage]; auto.
  - unfold Client.handle_chunk.
    set (lns := List.filter (startsWith (txt "data: "))
                  (split_blank_line (TextDecoder_decode v))).
    destruct (handle_lines_keep lns l base Hl) as (M & I & T & R).
    cbv zeta in M, I, T, R.
    destruct (Client.responseFinished
                (fold_left (fun l ln => Client.handle_line ln l) lns l)).
    + cbn [fst]. auto.
    + destruct (IH _ M) as (M' & I' & T' & R'). cbv zeta in *.
      rewrite I', T', R'. auto.
Qed.

(** What the [try] statement does to the component, whatever is fetched. *)
Lemma try_send_effects (updated : list ChatMessage) (f : Client.Fetch)
    (c1 : Client.ChatBot) :
  Client.messages c1 = updated ++ [mkMessage assistant []] ->
  let c' := Client.try_send updated f c1 in
  Client.input c' = Client.input c1 /\
  Client.rateLimit c'
  = match f with
    | Client.NetworkError _ => Client.rateLimit c1
    | Client.Responded response =>
        Client.mkRateLimit
          (Client.number_or_zero (x_ratelimit_limit (Client.headers response)))
          (Client.number_or_zero (x_ratelimit_remaining (Client.headers response)))
          (x_ratelimit_reset (Client.headers response))
          (Client.status response =? 429)
    end /\
  ((Client.messages c' = updated /\ exists e, Client.error c' = Some e) \/
   (exists a, Client.messages c' = updated ++ [mkMessage assistant a])).
Proof.
  intros Hm. unfold Client.try_send.
  assert (Hcatch : forall m c,
             Client.messages (Client.catch m updated c) = updated /\
             exists e, Client.error (Client.catch m updated c) = Some e)
    by (intros m c; split; [reflexivity | eexists; reflexivity]).
  destruct f as [m | response].
  - repeat split; [left; apply Hcatch].
  - set (c2 := Client.setRateLimit _ c1).
    destruct (Client.status response =? 429).
    + destruct (Client.json response).
      * repeat split. left. split; [reflexivity | eexists; reflexivity].
      * repeat split. left. apply Hcatch.
    + destruct (negb (Client.ok (Client.status response)));
        [repeat split; left; apply Hcatch|].
      destruct (Client.body response) as [reader|];
        [|repeat split; left; apply Hcatch].
      pose proof (read_loop_keeps (Client.reads reader) (Client.failure reader)
                    (Client.mkLoop [] false c2) updated Hm) as (M & I & T & R).
      cbv zeta in M, I, T, R.
      destruct (Client.read_loop (Client.reads reader) (Client.failure reader)
                  (Client.mkLoop [] false c2)) as [l' [m|]];
        cbn [fst] in *.
      * split; [exact I|]. split; [exact R|]. left. apply Hcatch.
      * split; [exact I|]. split; [exact R|]. right. eauto.
Qed.

(** ** What every send does *)

Lemma rateLimit_after_send (c : Client.ChatBot) (f : Client.Fetch) :
  is_empty (trim (Client.input c)) = false ->
  Client.isTyping c = false ->
  Client.isRateLimited c = false ->
  Client.rateLimit (fst (Client.sendMessage c f))
  = match f with
    | Client.NetworkError _ => Client.rateLimit c
    | Client.Responded response =>
        Client.mkRateLimit
          (Client.number_or_zero (x_ratelimit_limit (Client.headers response)))
          (Client.number_or_zero (x_ratelimit_remaining (Client.headers response)))
          (x_ratelimit_reset (Client.headers response))
          (Client.status response =? 429)
    end.
Proof.
  intros H1 H2 H3. unfold Client.sendMessage.
  rewrite H1, H2, H3. cbn [orb fst].
  match goal with |- context [Client.try_send ?u f ?c1] =>
    destruct (try_send_effects u f c1 eq_refl) as (_ & R & _)
  end.
  exact R.
Qed.

(** Whatever is fetched, a send that passes the gate posts the
    conversation with the trimmed input as the user's message (and without
    the placeholder), clears the input and the typing indicator, and, when a
    response came, takes the rate-limit state from its headers (0 for a
    counter that is missing), limited exactly when the status is 429; a
    network failure leaves the rate-limit state as it was. *)
Theorem send_settles (c : Client.ChatBot) (f : Client.Fetch) :
  is_empty (trim (Client.input c)) = false ->
  Client.isTyping c = false ->
  Client.isRateLimited c = false ->
  let r := Client.sendMessage c f in
  snd r = Some (Client.messages c ++ [mkMessage user (trim (Client.input c))]) /\
  Client.input (fst r) = [] /\
  Client.isTyping (fst r) = false /\
  Client.rateLimit (fst r)
  = match f with
    | Client.NetworkError _ => Client.rateLimit c
    | Client.Responded response =>
        Client.mkRateLimit
          (Client.number_or_zero (x_ratelimit_limit (Client.headers response)))
          (Client.number_or_zero (x_ratelimit_remaining (Client.headers response)))
          (x_ratelimit_reset (Client.headers response))
          (Client.status response =? 429)
    end.
Proof.
  intros H1 H2 H3 r. subst r.
  pose proof (rateLimit_after_send c f H1 H2 H3) as R.
  unfold Client.sendMessage in *.
  rewrite H1, H2, H3 in *. cbn [orb fst snd] in *.
  split; [reflexivity|].
  match goal with |- context [Client.try_send ?u f ?c1] =>
    destruct (try_send_effects u f c1 eq_refl) as (I & _ & _)
  end.
  cbv zeta in I.
  split; [exact I|]. split; [reflexivity|]. exact R.
Qed.

(** Whatever is fetched and whatever bytes the body brings, the
    conversation after a send is the posted conversation, followed by at
    most one assistant message; when there is none, an error is shown. *)
Theorem conversation_after_send (c : Client.ChatBot) (f : Client.Fetch) :
  is_empty (trim (Client.input c)) = false ->
  Client.isTyping c = false ->
  Client.isRateLimited c = false ->
  let posted := Client.messages c ++ [mkMessage user (trim (Client.input c))] in
  let after := fst (Client.sendMessage c f) in
  (Client.messages after = posted /\ exists e, Client.error after = Some e) \/
  (exists a, Client.messages after = posted ++ [mkMessage assistant a]).
Proof.
  intros H1 H2 H3 posted after. subst after. unfold Client.sendMessage.
  rewrite H1, H2, H3. cbn [orb fst].
  match goal with |- context [Client.try_send ?u f ?c1] =>
    destruct (try_send_effects u f c1 eq_refl) as (_ & _ & D)
  end.
  exact D.
Qed.

(** The user's message that is posted is the input without the white
    space at its two ends: it is not empty and neither starts nor ends with
    white space. *)
Theorem posted_message_is_trimmed
    (c : Client.ChatBot) (f : Client.Fetch) (posted : list ChatMessage) :
  snd (Client.sendMessage c f) = Some posted ->
  exists u p q,
    posted = Client.messages c ++ [mkMessage user u] /\
    Client.input c = p ++ u ++ q /\
    u <> [] /\
    forallb is_white_space p = true /\ forallb is_white_space q = true /\
    (forall x r, u = x :: r -> is_white_space x = false) /\
    (forall x r, u = r ++ [x] -> is_white_space x = false).
Proof.
  unfold Client.sendMessage.
  destruct (is_empty (trim (Client.input c))) eqn:E; cbn [orb snd];
    [discriminate|].
  destruct (Client.isTyping c || Client.isRateLimited c); cbn [snd];
    [discriminate|].
  intros H. injection H as <-.
  destruct (trim_spec (Client.input c)) as (p & q & Ei & Wp & Wq & Hh & Hl).
  exists (trim (Client.input c)), p, q. repeat split; auto.
  intros Hu. rewrite Hu in E. discriminate E.
Qed.

(** After a 429, or after any response whose remaining-requests header
    is missing or not positive, every later send is refused, whatever is
    typed: nothing in the component resets the rate-limit state. *)
Theorem no_send_after_exhaustion
    (c : Client.ChatBot) (response : Client.Response) :
  is_empty (trim (Client.input c)) = false ->
  Client.isTyping c = false ->
  Client.isRateLimited c = false ->
  Client.status response = 429 \/
  Client.number_or_zero (x_ratelimit_remaining (Client.headers response)) <= 0 ->
  let after := fst (Client.sendMessage c (Client.Responded response)) in
  forall (typed : text) (f : Client.Fetch),
    Client.sendMessage (Client.setInput typed after) f
    = (Client.setInput typed after, None).
Proof.
  intros H1 H2 H3 Hex after typed f.
  pose proof (rateLimit_after_send c (Client.Responded response) H1 H2 H3) as R.
  fold after in R.
  assert (G : Client.isRateLimited (Client.setInput typed after) = true).
  { unfold Client.isRateLimited. cbn [Client.setInput Client.rateLimit].
    rewrite R. cbn [Client.isLimited Client.remaining].
    destruct Hex as [-> | Hrem]; [reflexivity|].
    apply orb_true_iff. right. apply Z.leb_le. exact Hrem. }
  unfold Client.sendMessage. rewrite G, !orb_true_r. reflexivity.
Qed.

(** ** Streams of content events *)

Lemma read_loop_contents (css : list (list text)) (rest : list (list Z))
    (fail : option text) (base : list ChatMessage) (l : Client.Loop) :
  Forall (Forall (fun c => c <> [] /\ Forall scalar c)) css ->
  Client.responseFinished l = false ->
  Client.messages (Client.st l)
  = base ++ [mkMessage assistant (Client.assistantMessage l)] ->
  Client.read_loop (whole_events (map (map EvContent) css) ++ rest) fail l
  = Client.read_loop rest fail
      (Client.mkLoop (Client.assistantMessage l ++ concat (concat css)) false
         (Client.setMessages
            (base ++ [mkMessage assistant
                        (Client.assistantMessage l ++ concat (concat css))])
            (Client.st l))).
Proof.
  intros Hcss. revert l. induction Hcss as [|cs css Hcs Hcss IH]; intros l Hfin Hl.
  - cbn [map whole_events concat app]. rewrite app_nil_r, <- Hl, setMessages_same.
    destruct l as [am fin st0]. cbn in Hfin. subst fin. reflexivity.
  - cbn [map whole_events app Client.read_loop].
    assert (Hne : Forall (fun c => c <> []) cs)
      by (eapply Forall_impl; [exact Hcs | intros x [H _]; exact H]).
    assert (Hwf : Forall well_formed (map EvContent cs)).
    { apply Forall_map. eapply Forall_impl; [exact Hcs | intros x [_ H]; exact H]. }
    rewrite (handle_chunk_events _ l Hwf), (on_contents cs l base Hne Hl).
    cbn [Client.responseFinished]. rewrite Hfin.
    fold (whole_events (map (map EvContent) css)).
    rewrite IH by reflexivity.
    cbn [Client.assistantMessage Client.st concat].
    rewrite concat_app, <- !app_assoc. reflexivity.
Qed.

Lemma send_stream (c : Client.ChatBot) (h : RateLimitHeaders)
    (rs : list (list Z)) (fail : option text) :
  is_empty (trim (Client.input c)) = false ->
  Client.isTyping c = false ->
  Client.isRateLimited c = false ->
  let posted := Client.messages c ++ [mkMessage user (trim (Client.input c))] in
  let c2 :=
    Client.setRateLimit
      (Client.mkRateLimit (Client.number_or_zero (x_ratelimit_limit h))
         (Client.number_or_zero (x_ratelimit_remaining h))
         (x_ratelimit_reset h) false)
      (Client.setError None
         (Client.setIsTyping true
            (Client.setInput []
               (Client.setMessages (posted ++ [mkMessage assistant []]) c)))) in
  fst (Client.sendMessage c (streamed h rs fail))
  = Client.setIsTyping false
      (match Client.read_loop rs fail (Client.mkLoop [] false c2) with
       | (l, None) => Client.st l
       | (l, Some m) => Client.catch m posted (Client.st l)
       end).
Proof.
  intros H1 H2 H3 posted c2. unfold Client.sendMessage.
  rewrite H1, H2, H3. reflexivity.
Qed.

(** When the body ends without a terminal event, after reads that carry
    whole content events, the send completes with their concatenation as the
    assistant message; when instead a read fails, the conversation goes back
    to the posted one, the streamed content is dropped and the failure is
    shown. *)
Theorem stream_without_terminal_event
    (c : Client.ChatBot) (h : RateLimitHeaders) (css : list (list text)) :
  is_empty (trim (Client.input c)) = false ->
  Client.isTyping c = false ->
  Client.isRateLimited c = false ->
  Forall (Forall (fun d => d <> [] /\ Forall scalar d)) css ->
  let posted := Client.messages c ++ [mkMessage user (trim (Client.input c))] in
  let rs := whole_events (map (map EvContent) css) in
  let ended := fst (Client.sendMessage c (streamed h rs None)) in
  (Client.messages ended = posted ++ [mkMessage assistant (concat (concat css))] /\
   Client.error ended = None /\
   Client.terminal_state ended = Client.Completed) /\
  (forall m,
      let failed := fst (Client.sendMessage c (streamed h rs (Some m))) in
      Client.messages failed = posted /\
      Client.error failed = Some (txt "Error: " ++ m) /\
      Client.terminal_state failed = Client.Errored).
Proof.
  intros H1 H2 H3 Hcss posted rs ended. subst ended rs. split.
  - rewrite (send_stream c h _ None H1 H2 H3).
    rewrite <- (app_nil_r (whole_events _)).
    match goal with |- context [Client.read_loop _ _ ?l0] =>
      rewrite (read_loop_contents css [] None posted l0 Hcss eq_refl eq_refl)
    end.
    cbn. auto.
  - intros m failed. subst failed.
    rewrite (send_stream c h _ (Some m) H1 H2 H3).
    rewrite <- (app_nil_r (whole_events _)).
    match goal with |- context [Client.read_loop _ _ ?l0] =>
      rewrite (read_loop_contents css [] (Some m) posted l0 Hcss eq_refl eq_refl)
    end.
    cbn. auto.
Qed.

(** An [error] event ends the reading: its message is shown, what was
    streamed before it stays in the assistant message, and neither the
    reads after it nor the way the body ends matter. *)
Theorem error_event_ends_reading
    (c : Client.ChatBot) (h : RateLimitHeaders) (css : list (list text))
    (m : text) (later : list (list Z)) (fail : option text) :
  is_empty (trim (Client.input c)) = false ->
  Client.isTyping c = false ->
  Client.isRateLimited c = false ->
  Forall (Forall (fun d => d <> [] /\ Forall scalar d)) css ->
  m <> [] -> Forall scalar m ->
  let posted := Client.messages c ++ [mkMessage user (trim (Client.input c))] in
  let rs := whole_events (map (map EvContent) css)
            ++ utf8_encode (sse (EvError m)) :: later in
  let after := fst (Client.sendMessage c (streamed h rs fail)) in
  Client.messages after = posted ++ [mkMessage assistant (concat (concat css))] /\
  Client.error after = Some (txt "Error: " ++ m) /\
  Client.isTyping after = false /\
  Client.terminal_state after = Client.Errored.
Proof.
  intros H1 H2 H3 Hcss Hm Sm posted rs after. subst after rs.
  rewrite (send_stream c h _ fail H1 H2 H3).
  match goal with |- context [Client.read_loop _ _ ?l0] =>
      rewrite (read_loop_contents css _ fail posted l0 Hcss eq_refl eq_refl)
    end.
  cbn [Client.read_loop].
  assert (E : utf8_encode (sse (EvError m))
              = flat_map (fun e => utf8_encode (sse e)) [EvError m])
    by (cbn [flat_map]; rewrite app_nil_r; reflexivity).
  rewrite E, handle_chunk_events
    by (apply List.Forall_cons; [exact Sm | apply List.Forall_nil]).
  destruct m as [|x m]; [contradiction|]. cbn. auto.
Qed.

(** ** The wire format *)

(** What the relay writes, the client reads back: for whole events, the
    lines the client keeps after decoding and splitting a read are the lines
    the relay wrote, and the payload of each parses to the object that was
    serialised. *)
Theorem lines_round_trip (g : list StreamEvent) :
  Forall well_formed g ->
  List.filter (startsWith (txt "data: "))
    (split_blank_line
       (TextDecoder_decode (flat_map (fun e => utf8_encode (sse e)) g)))
  = map line g /\
  Forall (fun e => JSON_parse (remove_prefix (txt "data: ") (line e))
                   = Some (payload e)) g.
Proof.
  intros Hg. split.
  - rewrite (TextDecoder_lines g Hg), (split_lines g Hg). apply data_lines.
  - eapply Forall_impl; [exact Hg|]. intros e He.
    unfold line. rewrite remove_prefix_app. apply parse_payload. exact He.
Qed.

(** Reads may be merged or cut between events: handling the bytes of
    two runs of whole events as one read is handling them as two. *)
Theorem handle_chunk_between_events
    (g1 g2 : list StreamEvent) (l : Client.Loop) :
  Forall well_formed g1 -> Forall well_formed g2 ->
  Client.handle_chunk
    (flat_map (fun e => utf8_encode (sse e)) g1
       ++ flat_map (fun e => utf8_encode (sse e)) g2) l
  = Client.handle_chunk (flat_map (fun e => utf8_encode (sse e)) g2)
      (Client.handle_chunk (flat_map (fun e => utf8_encode (sse e)) g1) l).
Proof.
  intros H1 H2. rewrite <- flat_map_app.
  rewrite !handle_chunk_events by (try apply Forall_app; auto).
  apply fold_left_app.
Qed.

(** ** The countdown *)

Lemma time_until_reset_helper (c : Client.ChatBot) (now t : Z) :
  Client.reset (Client.rateLimit c) = Some t ->
  exists secs,
    Client.getTimeUntilReset c now = Some secs /\
    0 <= secs /\
    (t <= now -> secs = 0) /\
    (now < t -> 1000 * (secs - 1) < t - now <= 1000 * secs).
Proof.
  unfold Client.getTimeUntilReset. intros ->.
  destruct (Z.ltb_spec 0 (t - now)).
  - eexists. split; [reflexivity|].
    repeat split; Z.to_euclidean_division_equations; lia.
  - exists 0. repeat split; lia.
Qed.

(** [getTimeUntilReset] is [null] exactly when no reset time is known;
    otherwise it is the time to the reset in seconds, rounded up, and 0 once
    the reset time has come: it is never negative. *)
Theorem time_until_reset (c : Client.ChatBot) (now : Z) :
  (Client.getTimeUntilReset c now = None <->
   Client.reset (Client.rateLimit c) = None) /\
  (forall t, Client.reset (Client.rateLimit c) = Some t ->
     exists secs,
       Client.getTimeUntilReset c now = Some secs /\
       0 <= secs /\
       (t <= now -> secs = 0) /\
       (now < t -> 1000 * (secs - 1) < t - now <= 1000 * secs)).
Proof.
  split.
  - unfold Client.getTimeUntilReset.
    destruct (Client.reset (Client.rateLimit c)); split; auto; discriminate.
  - intros t Et. apply time_until_reset_helper. exact Et.
Qed.

(** The banner is shown exactly when a reset time is known and no request
    remains.  Its countdown reads "0s" once the reset time has come, the
    seconds alone below one minute, and otherwise minutes and seconds that
    add up to the seconds left, with less than 60 seconds. *)
Theorem reset_banner_countdown (c : Client.ChatBot) (now : Z) :
  (Client.reset_banner c now = None <->
   Client.reset (Client.rateLimit c) = None \/
   0 < Client.remaining (Client.rateLimit c)) /\
  (forall t,
     Client.reset (Client.rateLimit c) = Some t ->
     Client.remaining (Client.rateLimit c) <= 0 ->
     exists secs,
       Client.getTimeUntilReset c now = Some secs /\
       Client.reset_banner c now
       = Some (txt "Rate limited. Reset in " ++ Client.formatCountdown secs) /\
       (t <= now -> Client.formatCountdown secs = txt "0s") /\
       (secs < 60 -> Client.formatCountdown secs = decimal secs ++ txt "s") /\
       (60 <= secs ->
        exists mins rest,
          Client.formatCountdown secs
          = decimal mins ++ txt "m " ++ decimal rest ++ txt "s" /\
          1 <= mins /\ 0 <= rest < 60 /\ secs = 60 * mins + rest)).
Proof.
  unfold Client.reset_banner. split.
  - destruct (Client.reset (Client.rateLimit c)) as [t|].
    + destruct (Z.leb_spec (Client.remaining (Client.rateLimit c)) 0).
      * split; [discriminate|]. intros [H' | H']; [discriminate | lia].
      * split; auto.
    + split; auto.
  - intros t Et Hrem.
    destruct (time_until_reset_helper c now t Et) as (secs & Es & Hpos & Hpast & _).
    exists secs. rewrite Et, Es.
    destruct (Z.leb_spec (Client.remaining (Client.rateLimit c)) 0); [|lia].
    cbn [default]. split; [reflexivity|]. split; [reflexivity|].
    unfold Client.formatCountdown. split; [|split].
    + intros Hp. rewrite (Hpast Hp). reflexivity.
    + intros Hs. destruct (Z.ltb_spec secs 60); [reflexivity | lia].
    + intros Hs. destruct (Z.ltb_spec secs 60); [lia|].
      exists (secs / 60), (Z.rem secs 60). split; [reflexivity|].
      rewrite Z.rem_mod_nonneg by lia.
      repeat split; Z.to_euclidean_division_equations; lia.
Qed.

(** ** A failing provider, end to end *)

Lemma concat_singletons {A} (l : list (list A)) :
  concat (concat (map (fun c => [c]) l)) = concat l.
Proof. induction l as [|x l IH]; cbn; [reflexivity | rewrite IH; reflexivity]. Qed.

Lemma one_by_one_contents (cs : list text) (e : StreamEvent) :
  one_by_one (map EvContent cs ++ [e])
  = whole_events (map (map EvContent) (map (fun c => [c]) cs))
    ++ [flat_map (fun e => utf8_encode (sse e)) [e]].
Proof.
  unfold one_by_one, whole_events. rewrite !map_app, !map_map. reflexivity.
Qed.

Lemma error_message_scalar (m : option text) :
  (forall t, m = Some t -> Forall scalar t) ->
  Forall scalar (Server.error_message m).
Proof.
  intros H. unfold Server.error_message, Server.nonempty.
  destruct m as [[|x t]|]; cbn [is_empty negb default].
  - apply scalar_literal. reflexivity.
  - apply H. reflexivity.
  - apply scalar_literal. reflexivity.
Qed.

(** When the provider fails after some deltas and the client is
    connected, the relay writes the content events and one [error] event,
    and a client that reads them write by write shows the provider's message
    (or "Unknown error") after "Error: ", keeps what was streamed in the
    assistant message, and ends in the state [Errored]. *)
Theorem provider_failure_reaches_user
    (c : Client.ChatBot) (deltas : list text) (m : option text)
    (h : RateLimitHeaders) (fail : option text) :
  is_empty (trim (Client.input c)) = false ->
  Client.isTyping c = false ->
  Client.isRateLimited c = false ->
  Forall (Forall scalar) deltas ->
  (forall t, m = Some t -> Forall scalar t) ->
  let posted := Client.messages c ++ [mkMessage user (trim (Client.input c))] in
  let up :=
    Server.mkUpstream (Server.quiet Server.Fulfilled)
      (map (fun d => Server.quiet (Server.mkChunk (Some d) None)) deltas)
      (Server.quiet (Server.Rejected m)) in
  let w := Server.written (Server.res (Server.relay up Server.fresh)) in
  let after := fst (Client.sendMessage c (streamed h (one_by_one w) fail)) in
  w = map EvContent (contents deltas) ++ [EvError (Server.error_message m)] /\
  Client.messages after
  = posted ++ [mkMessage assistant (concat (contents deltas))] /\
  Client.error after = Some (txt "Error: " ++ Server.error_message m) /\
  Client.terminal_state after = Client.Errored.
Proof.
  intros H1 H2 H3 Hsc Hm posted up w after.
  assert (Ew : w = map EvContent (contents deltas)
                   ++ [EvError (Server.error_message m)]).
  { subst w up. unfold Server.relay, Server.fresh.
    cbn [Server.create Server.chunks Server.finish Server.quiet Server.resume
         Server.closed Server.value].
    rewrite <- (app_nil_r (map _ deltas)), for_await_deltas.
    cbn [Server.for_await Server.res app]. unfold Server.catch.
    cbn [Server.writable Server.writableEnded andb negb].
    unfold Server.res_write.
    cbn [Server.writable Server.writableEnded andb negb Server.written
         Server.res_end]. reflexivity. }
  split; [exact Ew|]. subst after. rewrite Ew.
  assert (Hcss : Forall (Forall (fun d => d <> [] /\ Forall scalar d))
                   (map (fun c => [c]) (contents deltas))).
  { apply Forall_map. apply List.Forall_forall. intros x Hx.
    apply filter_In in Hx. destruct Hx as [Hin Hne].
    apply List.Forall_cons; [|apply List.Forall_nil]. split.
    - destruct x; [discriminate Hne | discriminate].
    - rewrite List.Forall_forall in Hsc. apply Hsc. exact Hin. }
  rewrite (send_stream c h _ fail H1 H2 H3), one_by_one_contents.
  match goal with |- context [Client.read_loop _ _ ?l0] =>
    rewrite (read_loop_contents _ _ fail posted l0 Hcss eq_refl eq_refl)
  end.
  cbn [Client.read_loop].
  rewrite handle_chunk_events
    by (apply List.Forall_cons;
        [apply error_message_scalar; exact Hm | apply List.Forall_nil]).
  rewrite concat_singletons.
  pose proof (error_message_nonempty m) as Hne.
  destruct (Server.error_message m) as [|x t]; [contradiction|]. cbn. auto.
Qed.

(** ** Instances *)

Lemma stream_is_always_ended_witness :
  Server.writableEnded
    (Server.res (Server.relay (Server.script [txt "Hel"; txt "lo"] (txt "stop"))
                   Server.fresh)) = true.
Proof.
  apply (stream_is_always_ended Server.start
           (Server.mkRequest "10.0.0.1"%string
              (Server.Array [mkMessage user (txt "hi")])) 0
           (Server.script [txt "Hel"; txt "lo"] (txt "stop"))
           (mkHeaders (Some 1) (Some 0) (Some 60000))).
  reflexivity.
Defined.

Lemma relay_of_connected_client_witness :
  let up := Server.mkUpstream (Server.quiet Server.Fulfilled)
              [Server.quiet (Server.mkChunk (Some (txt "Hel")) None);
               Server.quiet (Server.mkChunk (Some []) None);
               Server.quiet (Server.mkChunk (Some (txt "lo")) (Some (txt "stop")))]
              (Server.quiet Server.Fulfilled) in
  Server.written (Server.res (Server.relay up Server.fresh))
  = [EvContent (txt "Hel"); EvContent (txt "lo"); EvFinish (txt "stop"); EvDone] /\
  Server.pulled (Server.relay up Server.fresh) = 3%nat.
Proof.
  refine (proj1 (relay_of_connected_client
                   (Server.mkUpstream (Server.quiet Server.Fulfilled)
                      [Server.quiet (Server.mkChunk (Some (txt "Hel")) None);
                       Server.quiet (Server.mkChunk (Some []) None);
                       Server.quiet (Server.mkChunk (Some (txt "lo")) (Some (txt "stop")))]
                      (Server.quiet Server.Fulfilled)) _) _).
  - split; [reflexivity|]. intros _. split; [|reflexivity].
    repeat (apply List.Forall_cons; [reflexivity|]). apply List.Forall_nil.
  - split; reflexivity.
Defined.

Lemma no_terminal_event_after_close_witness :
  Server.quiet_events
    (Server.written
       (Server.res
          (Server.relay
             (Server.mkUpstream (Server.quiet Server.Fulfilled)
                [Server.quiet (Server.mkChunk (Some (txt "Hel")) None)]
                (Server.mkAwait true (Server.Rejected (Some (txt "boom")))))
             Server.fresh))).
Proof.
  apply (no_terminal_event_after_close
           (Server.mkUpstream (Server.quiet Server.Fulfilled)
              [Server.quiet (Server.mkChunk (Some (txt "Hel")) None)]
              (Server.mkAwait true (Server.Rejected (Some (txt "boom")))))).
  right. split; [reflexivity|]. right. reflexivity.
Defined.

Lemma terminal_events_are_truthful_witness :
  Server.completes (Server.script [txt "Hel"] (txt "stop")).
Proof.
  apply (terminal_events_are_truthful (Server.script [txt "Hel"] (txt "stop"))).
  simpl. auto.
Defined.

Lemma retry_after_is_positive_witness :
  Server.chatLimiter_handler (RateLimiter.mkDecision false 1 0 60000) 60250
  = Server.Json 429
      (Server.TooManyRequests (txt "Too many requests") 1 0 60000 60000) /\
  Server.chatLimiter_handler (RateLimiter.mkDecision false 1 0 60000) 1000
  = Server.Json 429
      (Server.TooManyRequests (txt "Too many requests") 1 0 60000 59000).
Proof.
  split.
  - destruct (retry_after_is_positive (RateLimiter.mkDecision false 1 0 60000) 60250)
      as (ms & E & _ & _ & Hpast).
    rewrite E, Hpast by (simpl; lia). reflexivity.
  - destruct (retry_after_is_positive (RateLimiter.mkDecision false 1 0 60000) 1000)
      as (ms & E & _ & Hfuture & _).
    rewrite E, Hfuture by (simpl; lia). reflexivity.
Defined.

Lemma send_gate_witness :
  snd (Client.sendMessage
         (Client.mkChatBot [] [32; 9; 10] false (Client.mkRateLimit 1 1 None false) None)
         (Client.NetworkError (txt "offline"))) = None.
Proof.
  apply (send_gate
           (Client.mkChatBot [] [32; 9; 10] false (Client.mkRateLimit 1 1 None false) None)
           (Client.NetworkError (txt "offline"))).
  left. reflexivity.
Defined.

Lemma send_settles_witness :
  let c := Client.mkChatBot [] (txt " hi ") false
             (Client.mkRateLimit 1 1 None false) None in
  let r := Client.sendMessage c (Client.NetworkError (txt "offline")) in
  snd r = Some [mkMessage user (txt "hi")] /\
  Client.input (fst r) = [] /\
  Client.isTyping (fst r) = false /\
  Client.rateLimit (fst r) = Client.mkRateLimit 1 1 None false.
Proof.
  apply (send_settles
           (Client.mkChatBot [] (txt " hi ") false
              (Client.mkRateLimit 1 1 None false) None)
           (Client.NetworkError (txt "offline"))); reflexivity.
Defined.

Lemma conversation_after_send_witness :
  let c := Client.mkChatBot [] (txt "hi") false
             (Client.mkRateLimit 1 1 None false) None in
  let after :=
    fst (Client.sendMessage c
           (streamed (mkHeaders (Some 1) (Some 0) None) [[255; 0; 10; 10]] None)) in
  (Client.messages after = [mkMessage user (txt "hi")] /\
   exists e, Client.error after = Some e) \/
  (exists a, Client.messages after
             = [mkMessage user (txt "hi")] ++ [mkMessage assistant a]).
Proof.
  apply (conversation_after_send
           (Client.mkChatBot [] (txt "hi") false
              (Client.mkRateLimit 1 1 None false) None)
           (streamed (mkHeaders (Some 1) (Some 0) None) [[255; 0; 10; 10]] None));
    reflexivity.
Defined.

Lemma posted_message_is_trimmed_witness :
  exists u p q,
    [mkMessage user (txt "hi")] = [] ++ [mkMessage user u] /\
    txt " hi " = p ++ u ++ q /\ u <> [].
Proof.
  destruct (posted_message_is_trimmed
              (Client.mkChatBot [] (txt " hi ") false
                 (Client.mkRateLimit 1 1 None false) None)
              (Client.NetworkError (txt "offline"))
              [mkMessage user (txt "hi")] eq_refl)
    as (u & p & q & E1 & E2 & Hu & _).
  exists u, p, q. auto.
Defined.

Lemma no_send_after_exhaustion_witness :
  let c := Client.mkChatBot [] (txt "hi") false
             (Client.mkRateLimit 1 1 None false) None in
  let response :=
    Client.mkResponse 200 (mkHeaders None None None) (inr [])
      (Some (Client.mkReader (one_by_one [EvContent (txt "yo"); EvDone]) None)) in
  let after := fst (Client.sendMessage c (Client.Responded response)) in
  Client.sendMessage (Client.setInput (txt "again") after)
    (Client.NetworkError (txt "offline"))
  = (Client.setInput (txt "again") after, None).
Proof.
  apply (no_send_after_exhaustion
           (Client.mkChatBot [] (txt "hi") false
              (Client.mkRateLimit 1 1 None false) None)
           (Client.mkResponse 200 (mkHeaders None None None) (inr [])
              (Some (Client.mkReader (one_by_one [EvContent (txt "yo"); EvDone]) None))));
    try reflexivity.
  right. simpl. lia.
Defined.

Lemma stream_without_terminal_event_witness :
  let c := Client.mkChatBot [] (txt "hi") false
             (Client.mkRateLimit 1 1 None false) None in
  let h := mkHeaders (Some 1) (Some 0) (Some 60000) in
  let rs := whole_events [[EvContent (txt "Hel")]; [EvContent (txt "lo")]] in
  Client.messages (fst (Client.sendMessage c (streamed h rs None)))
  = [mkMessage user (txt "hi"); mkMessage assistant (txt "Hello")] /\
  Client.messages (fst (Client.sendMessage c (streamed h rs (Some (txt "reset")))))
  = [mkMessage user (txt "hi")].
Proof.
  destruct (stream_without_terminal_event
              (Client.mkChatBot [] (txt "hi") false
                 (Client.mkRateLimit 1 1 None false) None)
              (mkHeaders (Some 1) (Some 0) (Some 60000))
              [[txt "Hel"]; [txt "lo"]] eq_refl eq_refl eq_refl)
    as [(M & _) F].
  - repeat (apply List.Forall_cons;
            [apply List.Forall_cons;
             [split; [discriminate | apply scalar_literal; reflexivity]
             | apply List.Forall_nil]|]).
    apply List.Forall_nil.
  - split; [exact M|]. apply (F (txt "reset")).
Defined.

Lemma error_event_ends_reading_witness :
  let c := Client.mkChatBot [] (txt "hi") false
             (Client.mkRateLimit 1 1 None false) None in
  let h := mkHeaders (Some 1) (Some 0) (Some 60000) in
  let rs := whole_events [[EvContent (txt "par")]]
            ++ utf8_encode (sse (EvError (txt "boom")))
               :: [utf8_encode (sse (EvContent (txt "late")))] in
  let after := fst (Client.sendMessage c (streamed h rs None)) in
  Client.messages after
  = [mkMessage user (txt "hi"); mkMessage assistant (txt "par")] /\
  Client.error after = Some (txt "Error: boom").
Proof.
  destruct (error_event_ends_reading
              (Client.mkChatBot [] (txt "hi") false
                 (Client.mkRateLimit 1 1 None false) None)
              (mkHeaders (Some 1) (Some 0) (Some 60000))
              [[txt "par"]] (txt "boom")
              [utf8_encode (sse (EvContent (txt "late")))] None
              eq_refl eq_refl eq_refl)
    as (M & E & _).
  - apply List.Forall_cons; [|apply List.Forall_nil].
    apply List.Forall_cons; [|apply List.Forall_nil].
    split; [discriminate | apply scalar_literal; reflexivity].
  - discriminate.
  - apply scalar_literal. reflexivity.
  - split; [exact M | exact E].
Defined.

Lemma lines_round_trip_witness :
  List.filter (startsWith (txt "data: "))
    (split_blank_line
       (TextDecoder_decode
          (flat_map (fun e => utf8_encode (sse e))
             [EvContent [233; 10; 34]; EvDone])))
  = [line (EvContent [233; 10; 34]); line EvDone].
Proof.
  apply (lines_round_trip [EvContent [233; 10; 34]; EvDone]).
  apply List.Forall_cons; [|apply List.Forall_cons; [exact I | apply List.Forall_nil]].
  repeat (apply List.Forall_cons; [unfold scalar; lia|]). apply List.Forall_nil.
Defined.

Lemma handle_chunk_between_events_witness :
  let l := Client.mkLoop [] false
             (Client.mkChatBot [mkMessage assistant []] [] true
                (Client.mkRateLimit 1 1 None false) None) in
  Client.handle_chunk
    (flat_map (fun e => utf8_encode (sse e)) [EvContent (txt "Hel")]
       ++ flat_map (fun e => utf8_encode (sse e)) [EvContent (txt "lo")]) l
  = Client.handle_chunk
      (flat_map (fun e => utf8_encode (sse e)) [EvContent (txt "lo")])
      (Client.handle_chunk
         (flat_map (fun e => utf8_encode (sse e)) [EvContent (txt "Hel")]) l).
Proof.
  apply (handle_chunk_between_events [EvContent (txt "Hel")] [EvContent (txt "lo")]).
  - apply List.Forall_cons; [apply scalar_literal; reflexivity | apply List.Forall_nil].
  - apply List.Forall_cons; [apply scalar_literal; reflexivity | apply List.Forall_nil].
Defined.

Lemma time_until_reset_witness :
  exists secs,
    Client.getTimeUntilReset
      (Client.mkChatBot [] [] false (Client.mkRateLimit 1 0 (Some 100000) false) None)
      10500 = Some secs /\ 0 <= secs.
Proof.
  destruct (proj2 (time_until_reset
                     (Client.mkChatBot [] [] false
                        (Client.mkRateLimit 1 0 (Some 100000) false) None) 10500)
              100000 eq_refl) as (secs & E & H & _).
  exists secs. split; [exact E | exact H].
Defined.

Lemma reset_banner_countdown_witness :
  exists secs,
    Client.reset_banner
      (Client.mkChatBot [] [] false (Client.mkRateLimit 1 0 (Some 100000) false) None)
      10000
    = Some (txt "Rate limited. Reset in " ++ Client.formatCountdown secs).
Proof.
  destruct (proj2 (reset_banner_countdown
                     (Client.mkChatBot [] [] false
                        (Client.mkRateLimit 1 0 (Some 100000) false) None) 10000)
              100000 eq_refl) as (secs & _ & E & _).
  - simpl. lia.
  - exists secs. exact E.
Defined.

Lemma provider_failure_reaches_user_witness :
  let c := Client.mkChatBot [] (txt "hi") false
             (Client.mkRateLimit 1 1 None false) None in
  let up :=
    Server.mkUpstream (Server.quiet Server.Fulfilled)
      (map (fun d => Server.quiet (Server.mkChunk (Some d) None)) [txt "par"])
      (Server.quiet (Server.Rejected None)) in
  let w := Server.written (Server.res (Server.relay up Server.fresh)) in
  let after :=
    fst (Client.sendMessage c
           (streamed (mkHeaders (Some 1) (Some 0) (Some 60000)) (one_by_one w) None)) in
  w = [EvContent (txt "par"); EvError (txt "Unknown error")] /\
  Client.messages after
  = [mkMessage user (txt "hi"); mkMessage assistant (txt "par")] /\
  Client.error after = Some (txt "Error: Unknown error") /\
  Client.terminal_state after = Client.Errored.
Proof.
  apply (provider_failure_reaches_user
           (Client.mkChatBot [] (txt "hi") false
              (Client.mkRateLimit 1 1 None false) None)
           [txt "par"] None (mkHeaders (Some 1) (Some 0) (Some 60000)) None);
    try reflexivity.
  - apply List.Forall_cons; [apply scalar_literal; reflexivity | apply List.Forall_nil].
  - intros t E. discriminate E.
Defined.
